(** * Querra: the content-acquisition pipeline, embedded and verified

    A shallow embedding of the Python sources

    - [utils/extractor.py]    ([ContentExtractor.extract], [clean_content]),
    - [utils/search.py]       ([GoogleSearch.search]),
    - [utils/database.py]     ([Database.save_report], [get_reports],
                               [search_reports], [delete_report]),
    - [utils/ai_processor.py] ([GeminiProcessor._prepare_prompt],
                               [generate_report]),
    - [utils/export.py]       ([ReportExporter._get_filename], [export_txt],
                               [export_pdf], [export_docx]),
    - [app.py]                ([search_page] up to its export column, and
                               the read-back of [knowledge_base_page]),

    followed by the properties the specification states about them.

    Python values are modelled as the code has them: a [str] is a sequence
    of Unicode code points, an [int] is a [Z], a list is a [list], a missing
    dictionary key is [None].  Code that can raise lives in a small
    state-and-exception monad.  The search client is embedded twice:
    [RawSearch] reads answers whose decoded body is any JSON value, with
    the exceptions Python raises on the way, and [Search] reads the answers
    whose body has the form the provider documents; on those the two do
    the same ([search_typed]).  The outside world (the search provider,
    the URL validator, the page fetchers, the HTML parser, the database
    engine, the model, the clock, the disk, the document libraries) is a
    record of functions handed to the code that calls it, so every
    property holds whatever the world answers. *)

From Stdlib Require Import ZArith NArith Lia Bool String Ascii.
From stdpp Require Import base list sorting gmap.

Local Open Scope Z_scope.

(** ** Python strings *)

Module PyStr.

(** A Python [str]: a sequence of code points. *)
Definition pystr := list N.

(** ASCII literals of the source, written as Rocq strings. *)
Definition ustr (s : string) : pystr :=
  map N_of_ascii (list_ascii_of_string s).

(** The empty string. *)
Definition EMPTY : pystr := [].

Definition SPACE : N := 32.
Definition NEWLINE : N := 10.
Definition TAB : N := 9.

(** [str.isspace] on one code point: the characters [str.split()] and
    [str.strip()] treat as whitespace. *)
Definition is_space (c : N) : bool :=
  ((9 <=? c) && (c <=? 13) || (28 <=? c) && (c <=? 32)
   || (c =? 133) || (c =? 160) || (c =? 5760)
   || (8192 <=? c) && (c <=? 8202)
   || (c =? 8232) || (c =? 8233) || (c =? 8239) || (c =? 8287)
   || (c =? 12288))%N.

(** [s.split()] with no argument: the maximal runs of non-whitespace.
    [cur] holds the run being read, most recent character first. *)
Fixpoint split_aux (s : pystr) (cur : pystr) : list pystr :=
  match s with
  | [] => match cur with [] => [] | _ => [reverse cur] end
  | c :: s' =>
      if is_space c then
        match cur with
        | [] => split_aux s' []
        | _ => reverse cur :: split_aux s' []
        end
      else split_aux s' (c :: cur)
  end.

Definition split (s : pystr) : list pystr := split_aux s [].

(** [sep.join(ws)] *)
Fixpoint join (sep : pystr) (ws : list pystr) : pystr :=
  match ws with
  | [] => []
  | [w] => w
  | w :: ws' => w ++ sep ++ join sep ws'
  end.

(** [s.replace(old, new)] for the one-character [old] and [new] the source
    passes. *)
Definition replace (old new : N) (s : pystr) : pystr :=
  map (fun c => if (c =? old)%N then new else c) s.

(** [s.strip()] *)
Fixpoint lstrip (s : pystr) : pystr :=
  match s with
  | c :: s' => if is_space c then lstrip s' else s
  | [] => []
  end.

Definition rstrip (s : pystr) : pystr := reverse (lstrip (reverse s)).

Definition strip (s : pystr) : pystr := rstrip (lstrip s).

(** [l[:n]]: the first [n] elements, or all but the last [-n] when [n]
    is negative. *)
Definition slice_to {A} (n : Z) (l : list A) : list A :=
  if 0 <=? n then take (Z.to_nat n) l
  else take (length l - Z.to_nat (- n))%nat l.

(** [s == t] *)
Fixpoint eqb (s t : pystr) : bool :=
  match s, t with
  | [], [] => true
  | c :: s', d :: t' => (c =? d)%N && eqb s' t'
  | _, _ => false
  end.

(** Truthiness of a [str]: [not s] holds of the empty string only. *)
Definition falsy (s : pystr) : bool :=
  match s with [] => true | _ => false end.

End PyStr.

Import PyStr.

(** ** utils/extractor.py: [ContentExtractor.clean_content] *)

Module Normalizer.

Definition MAX_CONTENT : Z := 50000.

(** [[
    def clean_content(self, content):
        if not content:
            return ""
        content = ' '.join(content.split())
        content = content.replace('\n', ' ').replace('\t', ' ')
        return content[:50000]
    ]] *)
Definition clean_content (content : pystr) : pystr :=
  if falsy content then []
  else
    let content := join [SPACE] (split content) in
    let content := replace TAB SPACE (replace NEWLINE SPACE content) in
    slice_to MAX_CONTENT content.

End Normalizer.

(** ** Exceptions and the state-and-exception monad *)

Module Py.

(** Subclasses of [requests.RequestException]: what the transport raises,
    what [raise_for_status] raises, and the class of the exception
    [response.json()] raises on a body that is not JSON. *)
Inductive request_error :=
| ConnectionError
| Timeout
| TooManyRedirects
| InvalidJSONError
| HTTPError (status_code : Z).

(** Python exceptions (subclasses of [Exception]). *)
Inductive exn :=
| RequestException (e : request_error)
| OtherException (name : string).

(** [isinstance(e, requests.RequestException)] *)
Definition is_request_exception (e : exn) : bool :=
  match e with RequestException _ => true | OtherException _ => false end.

(** [isinstance(e, Exception)] *)
Definition is_exception (e : exn) : bool := true.

Inductive result (A : Type) :=
| Return (a : A)
| Raise (e : exn).
Arguments Return {A} a.
Arguments Raise {A} e.

(** A computation over a mutable state [S] that returns or raises.  The
    state survives a raise, as Python's mutations do. *)
Definition M (S A : Type) : Type := S -> result A * S.

Definition ret {S A} (a : A) : M S A := fun s => (Return a, s).

Definition raise {S A} (e : exn) : M S A := fun s => (Raise e, s).

Definition bind {S A B} (c : M S A) (k : A -> M S B) : M S B :=
  fun s =>
    match c s with
    | (Return a, s') => k a s'
    | (Raise e, s') => (Raise e, s')
    end.

Definition get {S} : M S S := fun s => (Return s, s).

Definition modify {S} (f : S -> S) : M S unit := fun s => (Return tt, f s).

(** A pure call that may raise. *)
Definition lift {S A} (r : result A) : M S A := fun s => (r, s).

(** [try: c  except E as e: h e], where [catches] is [isinstance(_, E)]. *)
Definition try_except {S A} (c : M S A) (catches : exn -> bool)
    (h : exn -> M S A) : M S A :=
  fun s =>
    match c s with
    | (Return a, s') => (Return a, s')
    | (Raise e, s') => if catches e then h e s' else (Raise e, s')
    end.

(** What the body of a [for] loop asks for next. *)
Inductive ctl := Continue | Break.

(** [for x in xs: body x] *)
Fixpoint for_in {S X} (xs : list X) (body : X -> M S ctl) : M S unit :=
  match xs with
  | [] => ret tt
  | x :: xs' =>
      bind (body x) (fun c =>
        match c with
        | Break => ret tt
        | Continue => for_in xs' body
        end)
  end.

(** [range(start, stop, step)] for a positive [step] *)
Definition range (start stop step : Z) : list Z :=
  map (fun k => start + step * Z.of_nat k)
      (seq 0 (Z.to_nat ((stop - start + step - 1) / step))).

(** [d.get(key, default)] on a key that may be missing *)
Definition get_default {A} (field : option A) (default : A) : A :=
  match field with Some v => v | None => default end.

End Py.

Import Py.

Declare Scope py_scope.
Delimit Scope py_scope with py.
Notation "x <- c ;; k" := (bind c (fun x => k))
  (at level 100, c at next level, right associativity) : py_scope.
Notation "c ;;; k" := (bind c (fun _ => k))
  (at level 100, right associativity) : py_scope.

(** ** utils/search.py: [GoogleSearch], on answers of the documented form *)

Module Search.

Record search_result := {
  title : pystr;
  url : pystr;
  snippet : pystr;
}.

(** One element of the provider's [items] array; any key may be missing. *)
Record item := {
  item_title : option pystr;
  item_link : option pystr;
  item_snippet : option pystr;
}.

(** The decoded body of a response, [response.json()]: as the provider
    documents it, a JSON object whose [items] key may be missing.  What
    [search] does on a body of another form is in [RawSearch]. *)
Record search_data := { items : option (list item) }.

Record response := {
  status_code : Z;
  json : search_data;
}.

(** The [params] dictionary; [dateRestrict] and [start] are set on
    demand. *)
Record params := {
  key : option pystr;
  cx : option pystr;
  q : pystr;
  num : Z;
  dateRestrict : option pystr;
  start : option Z;
}.

(** The search provider: what [requests.get(self.endpoint, params=params)]
    answers, a response or a transport error. *)
Definition provider := params -> request_error + response.

Record GoogleSearch := {
  api_key : option pystr;
  self_cx : option pystr;
  transport : provider;
}.

(** The state [search] mutates: its [results] list, and the requests sent
    so far. *)
Record state := {
  results : list search_result;
  sent : list params;
}.

Definition set_results (f : list search_result -> list search_result)
    (s : state) : state :=
  {| results := f (results s); sent := sent s |}.

(** [_get_date_restrict] *)
Definition _get_date_restrict (time_filter : pystr) : option pystr :=
  if PyStr.eqb time_filter (ustr "Past 24 hours") then Some (ustr "d1")
  else if PyStr.eqb time_filter (ustr "Past week") then Some (ustr "w1")
  else if PyStr.eqb time_filter (ustr "Past month") then Some (ustr "m1")
  else if PyStr.eqb time_filter (ustr "Past year") then Some (ustr "y1")
  else None.

(** [requests.get(self.endpoint, params=params)] *)
Definition requests_get (self : GoogleSearch) (p : params)
    : M state response :=
  fun s =>
    let s' := {| results := results s; sent := sent s ++ [p] |} in
    match transport self p with
    | inl e => (Raise (RequestException e), s')
    | inr r => (Return r, s')
    end.

(** [response.raise_for_status()]: a 4xx or 5xx status raises
    [HTTPError]. *)
Definition is_error_status (r : response) : bool :=
  (400 <=? status_code r) && (status_code r <? 600).

Definition raise_for_status (r : response) : M state unit :=
  if is_error_status r
  then raise (RequestException (HTTPError (status_code r)))
  else ret tt.

(** The dictionary built from one item:
    [{'title': item.get('title', ''), 'url': item.get('link', ''),
      'snippet': item.get('snippet', '')}] *)
Definition make_result (it : item) : search_result :=
  {| title := get_default (item_title it) EMPTY;
     url := get_default (item_link it) EMPTY;
     snippet := get_default (item_snippet it) EMPTY |}.

(** [params["start"] = start_index] *)
Definition set_start (p : params) (start_index : Z) : params :=
  {| key := key p; cx := cx p; q := q p; num := num p;
     dateRestrict := dateRestrict p; start := Some start_index |}.

Local Open Scope py_scope.

(** One round of the pagination loop:
    [[
    params["start"] = start_index
    response = requests.get(self.endpoint, params=params)
    response.raise_for_status()
    data = response.json()
    if "items" not in data:
        break
    results.extend([{...} for item in data["items"]])
    if len(results) >= max_results:
        results = results[:max_results]
        break
    ]] *)
Definition page (self : GoogleSearch) (p : params) (max_results : Z)
    (start_index : Z) : M state ctl :=
  response <- requests_get self (set_start p start_index) ;;
  raise_for_status response ;;;
  let data := json response in
  match items data with
  | None => ret Break
  | Some its =>
      modify (set_results (fun rs => rs ++ map make_result its)) ;;;
      s <- get ;;
      if Z.of_nat (length (results s)) >=? max_results then
        modify (set_results (slice_to max_results)) ;;; ret Break
      else ret Continue
  end.

(** The [params] dictionary [search] starts from. *)
Definition initial_params (self : GoogleSearch) (query : pystr)
    (max_results : Z) (time_filter : pystr) : params :=
  {| key := api_key self; cx := self_cx self; q := query;
     num := Z.min max_results 10;
     dateRestrict := _get_date_restrict time_filter;
     start := None |}.

(** The body of [search] under its [try]. *)
Definition search_body (self : GoogleSearch) (query : pystr)
    (max_results : Z) (time_filter : pystr) : M state unit :=
  let p := initial_params self query max_results time_filter in
  for_in (range 1 (max_results + 1) 10) (page self p max_results).

(** [[
    def search(self, query, max_results=10, time_filter="Any"):
        params = {...}
        results = []
        try:
            for start_index in range(1, max_results + 1, 10):
                ...
        except requests.RequestException as e:
            print(f"Error during search: {e}")
        return results
    ]]
    run from [results = []]: the value returned (or the exception that
    escapes) and the final state, whose [sent] lists the requests issued.
    The message printed by the handler is left out. *)
Definition search (self : GoogleSearch) (query : pystr)
    (max_results : Z) (time_filter : pystr)
    : result (list search_result) * state :=
  (try_except (search_body self query max_results time_filter)
     is_request_exception (fun _ => ret tt) ;;;
   s <- get ;;
   ret (results s))
  {| results := []; sent := [] |}.

End Search.

(** ** Python objects decoded from JSON *)

Module PyObject.

(** What [json.loads] builds: [None], a [bool], an [int], a [float] (kept
    as its 64 bits), a [str], a [list], or a [dict] with [str] keys, kept
    as its items in insertion order. *)
Inductive value :=
| VNone
| VBool (b : bool)
| VInt (n : Z)
| VFloat (bits : Z)
| VStr (s : pystr)
| VList (xs : list value)
| VDict (kvs : list (pystr * value)).

Definition TypeError : exn := OtherException "TypeError".
Definition AttributeError : exn := OtherException "AttributeError".
Definition KeyError : exn := OtherException "KeyError".

(** The value a [dict] holds under [key], if any. *)
Fixpoint dict_lookup (key : pystr) (kvs : list (pystr * value))
    : option value :=
  match kvs with
  | [] => None
  | (k, v) :: kvs' => if PyStr.eqb k key then Some v else dict_lookup key kvs'
  end.

(** [s.startswith(prefix)] *)
Fixpoint startswith (prefix s : pystr) : bool :=
  match prefix, s with
  | [], _ => true
  | c :: prefix', d :: s' => (c =? d)%N && startswith prefix' s'
  | _ :: _, [] => false
  end.

(** [sub in s] for two strings *)
Fixpoint str_contains (sub s : pystr) : bool :=
  startswith sub s
  || match s with [] => false | _ :: s' => str_contains sub s' end.

(** [x == s] for a string [s] *)
Definition eq_str (x : value) (s : pystr) : bool :=
  match x with VStr t => PyStr.eqb t s | _ => false end.

(** [key in data] for a string [key]: a key of a [dict], an element of a
    [list], a part of a [str]; the other objects are no containers. *)
Definition contains (key : pystr) (data : value) : result bool :=
  match data with
  | VDict kvs =>
      Return (match dict_lookup key kvs with Some _ => true | None => false end)
  | VList xs => Return (existsb (fun x => eq_str x key) xs)
  | VStr s => Return (str_contains key s)
  | VNone | VBool _ | VInt _ | VFloat _ => Raise TypeError
  end.

(** [data[key]] for a string [key] *)
Definition getitem (data : value) (key : pystr) : result value :=
  match data with
  | VDict kvs =>
      match dict_lookup key kvs with
      | Some v => Return v
      | None => Raise KeyError
      end
  | _ => Raise TypeError
  end.

(** What [for x in v] runs through: the elements of a [list], the keys of
    a [dict], the characters of a [str]. *)
Definition iter (v : value) : result (list value) :=
  match v with
  | VList xs => Return xs
  | VDict kvs => Return (map (fun kv => VStr (fst kv)) kvs)
  | VStr s => Return (map (fun c => VStr [c]) s)
  | VNone | VBool _ | VInt _ | VFloat _ => Raise TypeError
  end.

(** [item.get(key, default)]: a method of [dict] only. *)
Definition get_method (item : value) (key : pystr) (default : value)
    : result value :=
  match item with
  | VDict kvs => Return (get_default (dict_lookup key kvs) default)
  | _ => Raise AttributeError
  end.

End PyObject.

(** ** utils/search.py: [GoogleSearch.search], whatever the answers hold *)

Module RawSearch.

Import PyObject.

(** The dictionary [search] builds from one item; its values are what the
    item holds under [title], [link] and [snippet]. *)
Record search_result := {
  title : value;
  url : value;
  snippet : value;
}.

(** A response: its status, and what [response.json()] does, which is to
    return the decoded body or to raise. *)
Record response := {
  status_code : Z;
  json : result value;
}.

(** What [requests.get(self.endpoint, params=params)] does: it returns a
    response or raises. *)
Definition provider := Search.params -> result response.

Record GoogleSearch := {
  api_key : option pystr;
  self_cx : option pystr;
  transport : provider;
}.

Record state := {
  results : list search_result;
  sent : list Search.params;
}.

Definition set_results (f : list search_result -> list search_result)
    (s : state) : state :=
  {| results := f (results s); sent := sent s |}.

Definition requests_get (self : GoogleSearch) (p : Search.params)
    : M state response :=
  fun s => (transport self p, {| results := results s; sent := sent s ++ [p] |}).

Definition is_error_status (r : response) : bool :=
  (400 <=? status_code r) && (status_code r <? 600).

Definition raise_for_status (r : response) : M state unit :=
  if is_error_status r
  then raise (RequestException (HTTPError (status_code r)))
  else ret tt.

Local Open Scope py_scope.

(** [[f(x) for x in xs]] *)
Fixpoint comprehension {S X Y} (f : X -> M S Y) (xs : list X)
    : M S (list Y) :=
  match xs with
  | [] => ret []
  | x :: xs' =>
      y <- f x ;;
      ys <- comprehension f xs' ;;
      ret (y :: ys)
  end.

(** [{'title': item.get('title', ''), 'url': item.get('link', ''),
      'snippet': item.get('snippet', '')}] *)
Definition make_result (item : value) : M state search_result :=
  t <- lift (get_method item (ustr "title") (VStr EMPTY)) ;;
  u <- lift (get_method item (ustr "link") (VStr EMPTY)) ;;
  s <- lift (get_method item (ustr "snippet") (VStr EMPTY)) ;;
  ret {| title := t; url := u; snippet := s |}.

(** One round of the pagination loop:
    [[
    params["start"] = start_index
    response = requests.get(self.endpoint, params=params)
    response.raise_for_status()
    data = response.json()
    if "items" not in data:
        break
    results.extend([{...} for item in data["items"]])
    if len(results) >= max_results:
        results = results[:max_results]
        break
    ]]
    The list is built in full before [extend] is called: an item that
    raises leaves [results] as it was. *)
Definition page (self : GoogleSearch) (p : Search.params) (max_results : Z)
    (start_index : Z) : M state ctl :=
  response <- requests_get self (Search.set_start p start_index) ;;
  raise_for_status response ;;;
  data <- lift (json response) ;;
  found <- lift (contains (ustr "items") data) ;;
  if negb found then ret Break
  else
    its <- lift (getitem data (ustr "items")) ;;
    its <- lift (iter its) ;;
    new <- comprehension make_result its ;;
    modify (set_results (fun rs => rs ++ new)) ;;;
    s <- get ;;
    if Z.of_nat (length (results s)) >=? max_results then
      modify (set_results (slice_to max_results)) ;;; ret Break
    else ret Continue.

Definition initial_params (self : GoogleSearch) (query : pystr)
    (max_results : Z) (time_filter : pystr) : Search.params :=
  {| Search.key := api_key self; Search.cx := self_cx self;
     Search.q := query;
     Search.num := Z.min max_results 10;
     Search.dateRestrict := Search._get_date_restrict time_filter;
     Search.start := None |}.

Definition search_body (self : GoogleSearch) (query : pystr)
    (max_results : Z) (time_filter : pystr) : M state unit :=
  let p := initial_params self query max_results time_filter in
  for_in (range 1 (max_results + 1) 10) (page self p max_results).

(** [search], run from [results = []]: the value returned, or the
    exception that escapes the handler of [requests.RequestException],
    and the final state. *)
Definition search (self : GoogleSearch) (query : pystr)
    (max_results : Z) (time_filter : pystr)
    : result (list search_result) * state :=
  (try_except (search_body self query max_results time_filter)
     is_request_exception (fun _ => ret tt) ;;;
   s <- get ;;
   ret (results s))
  {| results := []; sent := [] |}.

End RawSearch.

(** ** utils/extractor.py: [ContentExtractor.extract] *)

Module Html.

#[local] Set Warnings "-register-all".

(** A parsed document, as [BeautifulSoup] holds it. *)
Inductive node :=
| Text (s : pystr)
| Element (tag : pystr) (children : list node).

Definition soup := list node.

Definition tag_in (t : pystr) (tags : list pystr) : bool :=
  existsb (PyStr.eqb t) tags.

(** [for element in soup(tags): element.decompose()]: every element with
    one of the tags is removed, with its subtree. *)
Fixpoint decompose (tags : list pystr) (n : node) : list node :=
  match n with
  | Text s => [Text s]
  | Element t cs =>
      if tag_in t tags then []
      else [Element t (flat_map (decompose tags) cs)]
  end.

(** [find_all(tags)]: the matching elements in document order, nested
    matches included. *)
Fixpoint find_all (tags : list pystr) (n : node) : list node :=
  match n with
  | Text _ => []
  | Element t cs =>
      (if tag_in t tags then [n] else []) ++ flat_map (find_all tags) cs
  end.

(** [get_text()]: the text below a node, concatenated. *)
Fixpoint get_text (n : node) : pystr :=
  match n with
  | Text s => s
  | Element _ cs => flat_map get_text cs
  end.

End Html.

Module Extractor.

Import Html.

Record http_response := {
  status_code : Z;
  text : pystr;
}.

(** The network calls [extract] can make. *)
Inductive net_call :=
| FetchUrl (url : pystr)
| HttpGet (url : pystr) (user_agent : pystr) (timeout : Z).

(** The libraries and the network behind [extract].  A network answer may
    depend on the calls made before it, so the same URL fetched twice can
    answer differently; every call may raise. *)
Record web := {
  (** truthiness of [validators.url(url)], which answers [True] or a
      falsy failure object and does not raise *)
  validators_url : pystr -> bool;
  (** [trafilatura.fetch_url(url)]: the page, or [None] *)
  trafilatura_fetch_url : list net_call -> pystr -> result (option pystr);
  (** [trafilatura.extract(downloaded, include_links=False,
      include_images=False)]: the prose, or [None] *)
  trafilatura_extract : pystr -> result (option pystr);
  (** [requests.get(url, headers=self.headers, timeout=10)] *)
  requests_get : list net_call -> pystr -> result http_response;
  (** [BeautifulSoup(text, 'html.parser')] *)
  html_parser : pystr -> result soup;
}.

(** The state is the list of network calls made so far. *)
Definition net := list net_call.

Definition USER_AGENT : pystr :=
  ustr "Mozilla/5.0 (Windows NT 10.0; Win64; x64) AppleWebKit/537.36 (KHTML, like Gecko) Chrome/91.0.4472.124 Safari/537.36".

Definition fetch_url (w : web) (url : pystr) : M net (option pystr) :=
  fun calls => (trafilatura_fetch_url w calls url, calls ++ [FetchUrl url]).

Definition get (w : web) (url : pystr) : M net http_response :=
  fun calls =>
    (requests_get w calls url, calls ++ [HttpGet url USER_AGENT 10]).

(** [response.raise_for_status()]: a 4xx or 5xx status raises
    [HTTPError]. *)
Definition is_error_status (r : http_response) : bool :=
  (400 <=? status_code r) && (status_code r <? 600).

Definition raise_for_status (r : http_response) : M net unit :=
  if is_error_status r
  then raise (RequestException (HTTPError (status_code r)))
  else ret tt.

(** Truthiness of an optional string: [None] and [""] are falsy. *)
Definition truthy (o : option pystr) : option pystr :=
  match o with
  | Some s => if falsy s then None else Some s
  | None => None
  end.

Definition UNWANTED : list pystr :=
  [ustr "script"; ustr "style"; ustr "nav"; ustr "footer"; ustr "header"].

Definition WANTED : list pystr := [ustr "p"; ustr "article"].

Local Open Scope py_scope.

(** The fallback:
    [[
    response = requests.get(url, headers=self.headers, timeout=10)
    response.raise_for_status()
    soup = BeautifulSoup(response.text, 'html.parser')
    for element in soup(['script', 'style', 'nav', 'footer', 'header']):
        element.decompose()
    text = ' '.join([p.get_text().strip()
                     for p in soup.find_all(['p', 'article'])])
    return text.strip()
    ]] *)
Definition fallback (w : web) (url : pystr) : M net pystr :=
  response <- get w url ;;
  raise_for_status response ;;;
  soup <- lift (html_parser w (text response)) ;;
  let soup := flat_map (decompose UNWANTED) soup in
  let text :=
    join [SPACE]
      (map (fun p => strip (get_text p)) (flat_map (find_all WANTED) soup)) in
  ret (strip text).

(** The body of [extract] under its [try]:
    [[
    downloaded = trafilatura.fetch_url(url)
    if downloaded:
        content = trafilatura.extract(downloaded, include_links=False,
                                      include_images=False)
        if content:
            return content.strip()
    # Fallback to BeautifulSoup
    ...
    ]] *)
Definition extract_body (w : web) (url : pystr) : M net pystr :=
  downloaded <- fetch_url w url ;;
  match truthy downloaded with
  | Some downloaded =>
      content <- lift (trafilatura_extract w downloaded) ;;
      match truthy content with
      | Some content => ret (strip content)
      | None => fallback w url
      end
  | None => fallback w url
  end.

(** [[
    def extract(self, url):
        if not validators.url(url):
            return ""
        try:
            ...
        except Exception as e:
            print(f"Error extracting content from {url}: {e}")
            return ""
    ]]
    The message printed by the handler is left out. *)
Definition extract (w : web) (url : pystr) : M net pystr :=
  if negb (validators_url w url) then ret EMPTY
  else try_except (extract_body w url) is_exception (fun _ => ret EMPTY).

End Extractor.

(** ** app.py: the corpus loop of [search_page] *)

Module Pipeline.

Import Extractor.

Local Open Scope py_scope.

(** [[
    contents = []
    for url in st.session_state.selected_urls:
        content = extractor.extract(url)
        contents.append(content)
    ]]
    [contents] is the list built so far. *)
Fixpoint collect (w : web) (selected_urls : list pystr)
    (contents : list pystr) : M net (list pystr) :=
  match selected_urls with
  | [] => ret contents
  | url :: rest =>
      content <- extract w url ;;
      collect w rest (contents ++ [content])
  end.

(** The [contents] handed to [ai_processor.generate_report]. *)
Definition build_contents (w : web) (selected_urls : list pystr)
    : M net (list pystr) :=
  collect w selected_urls [].

End Pipeline.

(** ** [json.dumps] on a list of strings, and [eval] on its output *)

Module Json.

Definition BACKSLASH : N := 92.
Definition DQUOTE : N := 34.
Definition QUOTE : N := 39.

(** One lower-case hexadecimal digit. *)
Definition hex_digit (d : N) : N :=
  (if d <? 10 then 48 + d else 87 + d)%N.

(** ['{0:04x}'.format(n)] for [n < 0x10000] *)
Definition hex4 (n : N) : pystr :=
  [hex_digit (n / 4096 mod 16); hex_digit (n / 256 mod 16);
   hex_digit (n / 16 mod 16); hex_digit (n mod 16)]%N.

Definition u_escape (n : N) : pystr := BACKSLASH :: 117%N :: hex4 n.

(** The replacement [py_encode_basestring_ascii] makes for one character:
    printable ASCII other than the backslash and the double quote is kept,
    the short escapes of [ESCAPE_DCT] are used where they exist, anything
    else becomes [\uXXXX], a surrogate pair above the basic plane. *)
Definition escape_char (c : N) : pystr :=
  (if c =? BACKSLASH then [BACKSLASH; BACKSLASH]
   else if c =? DQUOTE then [BACKSLASH; DQUOTE]
   else if (32 <=? c) && (c <=? 126) then [c]
   else if c =? 8 then [BACKSLASH; 98]
   else if c =? 12 then [BACKSLASH; 102]
   else if c =? 10 then [BACKSLASH; 110]
   else if c =? 13 then [BACKSLASH; 114]
   else if c =? 9 then [BACKSLASH; 116]
   else if c <? 65536 then u_escape c
   else
     let n := c - 65536 in
     let s1 := N.lor 55296 (N.land (N.shiftr n 10) 1023) in
     let s2 := N.lor 56320 (N.land n 1023) in
     u_escape s1 ++ u_escape s2)%N.

Definition encode_str (s : pystr) : pystr :=
  DQUOTE :: flat_map escape_char s ++ [DQUOTE].

(** [json.dumps(l)] for a list of strings (default separators,
    [ensure_ascii=True]). *)
Definition dumps (l : list pystr) : pystr :=
  ustr "[" ++ join (ustr ", ") (map encode_str l) ++ ustr "]".

End Json.

Module PyEval.

Import Json.

(** Where the reader stands in a list display of string literals. *)
Inductive pstate :=
| PStart
| PItem (acc : list pystr)
| PStr (acc : list pystr) (quote : N) (cur : pystr)
| PEsc (acc : list pystr) (quote : N) (cur : pystr)
| PHex (acc : list pystr) (quote : N) (cur : pystr) (more : nat) (v : N)
| PAfter (acc : list pystr)
| PEnd (acc : list pystr).

Definition hex_value (c : N) : option N :=
  (if (48 <=? c) && (c <=? 57) then Some (c - 48)
   else if (97 <=? c) && (c <=? 102) then Some (c - 87)
   else if (65 <=? c) && (c <=? 70) then Some (c - 55)
   else None)%N.

Definition blank (c : N) : bool := ((c =? 32) || (c =? 9))%N.

(** One character of input.  [None] is an input outside the fragment read
    here. *)
Definition step (st : pstate) (c : N) : option pstate :=
  match st with
  | PStart =>
      if blank c then Some PStart
      else if (c =? 91)%N then Some (PItem [])
      else None
  | PItem acc =>
      if blank c then Some (PItem acc)
      else if (c =? 93)%N then Some (PEnd acc)
      else if ((c =? DQUOTE) || (c =? QUOTE))%N then Some (PStr acc c [])
      else None
  | PStr acc quote cur =>
      if (c =? quote)%N then Some (PAfter (acc ++ [reverse cur]))
      else if (c =? BACKSLASH)%N then Some (PEsc acc quote cur)
      else if (c =? NEWLINE)%N then None
      else Some (PStr acc quote (c :: cur))
  | PEsc acc quote cur =>
      (if c =? NEWLINE then Some (PStr acc quote cur)
       else if (c =? BACKSLASH) || (c =? QUOTE) || (c =? DQUOTE)
            then Some (PStr acc quote (c :: cur))
       else if c =? 97 then Some (PStr acc quote (7 :: cur))
       else if c =? 98 then Some (PStr acc quote (8 :: cur))
       else if c =? 102 then Some (PStr acc quote (12 :: cur))
       else if c =? 110 then Some (PStr acc quote (10 :: cur))
       else if c =? 114 then Some (PStr acc quote (13 :: cur))
       else if c =? 116 then Some (PStr acc quote (9 :: cur))
       else if c =? 118 then Some (PStr acc quote (11 :: cur))
       else if c =? 120 then Some (PHex acc quote cur 2 0)
       else if c =? 117 then Some (PHex acc quote cur 4 0)
       else if c =? 85 then Some (PHex acc quote cur 8 0)
       else if (48 <=? c) && (c <=? 55) || (c =? 78) then None
       else Some (PStr acc quote (c :: BACKSLASH :: cur)))%N
  | PHex acc quote cur more v =>
      match hex_value c, more with
      | Some d, 1%nat =>
          let v := (16 * v + d)%N in
          if (v <=? 1114111)%N then Some (PStr acc quote (v :: cur))
          else None
      | Some d, S more' => Some (PHex acc quote cur more' (16 * v + d)%N)
      | _, _ => None
      end
  | PAfter acc =>
      if blank c then Some (PAfter acc)
      else if (c =? 44)%N then Some (PItem acc)
      else if (c =? 93)%N then Some (PEnd acc)
      else None
  | PEnd acc => if blank c then Some (PEnd acc) else None
  end.

Fixpoint run (st : pstate) (src : pystr) : option (list pystr) :=
  match src with
  | [] => match st with PEnd acc => Some acc | _ => None end
  | c :: src' =>
      match step st c with
      | Some st' => run st' src'
      | None => None
      end
  end.

(** [eval(src)] where [src] is a list display of plain string literals:
    the list it evaluates to.  [eval] evaluates any Python expression;
    [None] stands for every source text that is not such a display. *)
Definition eval (src : pystr) : option (list pystr) := run PStart src.

End PyEval.

(** ** utils/database.py: [Database.save_report] *)

Module Database.

(** A [Report] object.  [id] and [created_at] are filled in when the row
    is written. *)
Record Report := {
  id : option Z;
  query : pystr;
  content : pystr;
  sources : pystr;
  created_at : option Z;
}.

(** The session of the [Database] object: the committed rows of the
    [reports] table, and the objects added but not yet committed. *)
Record session := {
  table : list Report;
  pending : list Report;
}.

(** The database engine: an operation may fail, and rows are stamped with
    the engine's clock. *)
Record engine := {
  add_error : session -> Report -> option exn;
  commit_error : session -> option exn;
  utcnow : session -> Z;
}.

(** The integer primary key the table gives its next row. *)
Definition next_id (rows : list Report) : Z :=
  1 + foldr (fun r m => Z.max (get_default (id r) 0) m) 0 rows.

(** Writes the pending objects after [rows], in the order they were
    added. *)
Fixpoint flush (now : Z) (rows : list Report) (objs : list Report)
    : list Report :=
  match objs with
  | [] => rows
  | o :: objs' =>
      flush now
        (rows ++ [{| id := Some (next_id rows); query := query o;
                     content := content o; sources := sources o;
                     created_at := Some now |}])
        objs'
  end.

(** [self.session.add(report)] *)
Definition add (e : engine) (r : Report) : M session unit :=
  fun s =>
    match add_error e s r with
    | Some x => (Raise x, s)
    | None => (Return tt, {| table := table s; pending := pending s ++ [r] |})
    end.

(** [self.session.commit()]: all pending rows are written, or none. *)
Definition commit (e : engine) : M session unit :=
  fun s =>
    match commit_error e s with
    | Some x => (Raise x, s)
    | None =>
        (Return tt,
         {| table := flush (utcnow e s) (table s) (pending s);
            pending := [] |})
    end.

(** [self.session.rollback()] *)
Definition rollback : M session unit :=
  modify (fun s => {| table := table s; pending := [] |}).

Local Open Scope py_scope.

(** [[
    def save_report(self, query, content, sources):
        try:
            report = Report(query=query, content=content,
                            sources=json.dumps(sources))
            self.session.add(report)
            self.session.commit()
            return True
        except Exception as e:
            self.session.rollback()
            return False
    ]] *)
Definition save_report (e : engine) (query content : pystr)
    (sources : list pystr) : M session bool :=
  try_except
    (let report := {| id := None; query := query; content := content;
                      sources := Json.dumps sources; created_at := None |} in
     add e report ;;;
     commit e ;;;
     ret true)
    is_exception
    (fun _ => rollback ;;; ret false).

End Database.

(** ** app.py: the source list read back in [knowledge_base_page] *)

Module KnowledgeBase.

(** [eval(report.sources)], the list the page iterates over. *)
Definition report_sources (report : Database.Report) : option (list pystr) :=
  PyEval.eval (Database.sources report).

End KnowledgeBase.

(** ** utils/database.py: [get_reports], [search_reports], [delete_report] *)

Module DatabaseQueries.

Import Database.

(** Failures of the statements [save_report] does not issue: a [SELECT]
    and a [session.delete]. *)
Record faults := {
  select_error : session -> option exn;
  delete_error : session -> Report -> option exn;
}.

(** The rows a statement of the session sees: the committed ones, then the
    pending ones, which the session writes (autoflush) before it reads. *)
Definition visible (e : engine) (s : session) : list Report :=
  flush (utcnow e s) (table s) (pending s).

(** [a.created_at >= b.created_at], a missing date being older than any
    date. *)
Definition not_olderb (a b : Report) : bool :=
  match created_at b, created_at a with
  | None, _ => true
  | Some _, None => false
  | Some y, Some x => y <=? x
  end.

Definition not_older (a b : Report) : Prop := Is_true (not_olderb a b).

#[global] Instance not_older_dec : RelDecision not_older :=
  fun a b => Is_true_dec (not_olderb a b).

(** [.order_by(Report.created_at.desc())] *)
Definition order_by_created_desc (rows : list Report) : list Report :=
  merge_sort not_older rows.

(** [.limit(n)]: a negative limit is no limit. *)
Definition sql_limit (n : Z) (rows : list Report) : list Report :=
  if n <? 0 then rows else take (Z.to_nat n) rows.

Definition PERCENT : N := 37.
Definition UNDERSCORE : N := 95.

(** [lower(c)] of the engine: ASCII letters only. *)
Definition ascii_lower (c : N) : N :=
  (if (65 <=? c) && (c <=? 90) then c + 32 else c)%N.

(** [lower(s)]: every character of the value, a NUL and what follows it
    included. *)
Definition sql_lower (s : pystr) : pystr := map ascii_lower s.

Definition NUL : N := 0.

(** The text the engine's string functions read from a value: they take
    it as a C string, which ends before the first NUL. *)
Fixpoint c_string (s : pystr) : pystr :=
  match s with
  | [] => []
  | c :: s' => if (c =? NUL)%N then [] else c :: c_string s'
  end.

(** The engine's [patternCompare] on the text of a pattern and of a
    string: [%] stands for any run of characters, [_] for any one
    character, any other character for itself, ASCII case aside. *)
Fixpoint patternCompare (pat s : pystr) : bool :=
  match pat with
  | [] => falsy s
  | p :: pat' =>
      if (p =? PERCENT)%N then
        (fix any (s : pystr) : bool :=
           patternCompare pat' s
           || match s with [] => false | _ :: s' => any s' end) s
      else
        match s with
        | [] => false
        | c :: s' =>
            ((p =? UNDERSCORE)%N || (ascii_lower p =? ascii_lower c)%N)
            && patternCompare pat' s'
        end
  end.

Definition is_surrogate (c : N) : bool :=
  ((55296 <=? c) && (c <=? 57343))%N.

(** A [str] parameter of a statement is handed to the engine as UTF-8
    text; a [str] that holds a surrogate has none. *)
Definition bind_text (s : pystr) : result pystr :=
  if existsb is_surrogate s
  then Raise (OtherException "UnicodeEncodeError")
  else Return s.

(** The number of bytes of a text in UTF-8. *)
Definition utf8_size (c : N) : Z :=
  if (c <? 128)%N then 1
  else if (c <? 2048)%N then 2
  else if (c <? 65536)%N then 3
  else 4.

Definition utf8_length (s : pystr) : Z :=
  foldr (fun c n => utf8_size c + n) 0 s.

(** The longest pattern the engine accepts, in bytes. *)
Definition SQLITE_MAX_LIKE_PATTERN_LENGTH : Z := 50000.

(** [s LIKE pat].  A pattern of more than 50,000 bytes is an error (the
    pattern is too complex).  Both operands are read as C strings, so a
    NUL in the pattern or in the string ends it: ['a\0b' LIKE '%b%'] is
    false and ['abc' LIKE '%\0%'] is true. *)
Definition like (pat s : pystr) : result bool :=
  if SQLITE_MAX_LIKE_PATTERN_LENGTH <? utf8_length pat
  then Raise (OtherException "OperationalError")
  else Return (patternCompare (c_string pat) (c_string s)).

(** [column.ilike(pat)]: [lower(column) LIKE lower(pat)]. *)
Definition ilike (s pat : pystr) : result bool :=
  like (sql_lower pat) (sql_lower s).

(** [session.query(Report).filter(cond).order_by(
      Report.created_at.desc()).limit(limit).all()] *)
Definition select (e : engine) (f : faults) (cond : Report -> bool)
    (limit : option Z) : M session (list Report) :=
  fun s =>
    match select_error f s with
    | Some x => (Raise x, s)
    | None =>
        let rows := order_by_created_desc (filter (fun r => Is_true (cond r)) (visible e s)) in
        (Return (match limit with Some n => sql_limit n rows | None => rows end),
         s)
    end.

(** [WHERE cond] over the rows: those for which [cond] is true, or the
    error of its evaluation. *)
Fixpoint sql_where (cond : Report -> result bool) (rows : list Report)
    : result (list Report) :=
  match rows with
  | [] => Return []
  | r :: rows' =>
      match cond r with
      | Raise x => Raise x
      | Return b =>
          match sql_where cond rows' with
          | Raise x => Raise x
          | Return kept => Return (if b then r :: kept else kept)
          end
      end
  end.

(** [session.query(Report).filter(cond).order_by(
      Report.created_at.desc()).all()], for a condition whose evaluation
    can fail. *)
Definition select_where (e : engine) (f : faults)
    (cond : Report -> result bool) : M session (list Report) :=
  fun s =>
    match select_error f s with
    | Some x => (Raise x, s)
    | None =>
        match sql_where cond (visible e s) with
        | Raise x => (Raise x, s)
        | Return rows => (Return (order_by_created_desc rows), s)
        end
    end.

Local Open Scope py_scope.

(** [[
    def get_reports(self, limit=10):
        try:
            return self.session.query(Report)\
                .order_by(Report.created_at.desc())\
                .limit(limit)\
                .all()
        except Exception as e:
            return []
    ]] *)
Definition get_reports (e : engine) (f : faults) (limit : Z)
    : M session (list Report) :=
  try_except (select e f (fun _ => true) (Some limit))
    is_exception (fun _ => ret []).

(** [[
    def search_reports(self, query):
        try:
            return self.session.query(Report)\
                .filter(Report.query.ilike(f"%{query}%"))\
                .order_by(Report.created_at.desc())\
                .all()
        except Exception as e:
            return []
    ]] *)
Definition search_reports (e : engine) (f : faults) (query : pystr)
    : M session (list Report) :=
  try_except
    (pattern <- lift (bind_text ([PERCENT] ++ query ++ [PERCENT])) ;;
     select_where e f (fun r => ilike (Database.query r) pattern))
    is_exception (fun _ => ret []).

(** [self.session.query(Report).get(report_id)]: the row with this primary
    key, or [None]. *)
Definition get_by_id (e : engine) (f : faults) (report_id : Z)
    : M session (option Report) :=
  fun s =>
    match select_error f s with
    | Some x => (Raise x, s)
    | None =>
        (Return (head (filter (fun r => id r = Some report_id) (visible e s))), s)
    end.

(** [self.session.delete(report)] then [self.session.commit()]: the row
    is removed and whatever was pending is written, or nothing changes. *)
Definition delete_and_commit (e : engine) (f : faults) (r : Report)
    : M session unit :=
  fun s =>
    match delete_error f s r with
    | Some x => (Raise x, s)
    | None =>
        match commit_error e s with
        | Some x => (Raise x, s)
        | None =>
            (Return tt,
             {| table := filter (fun x => id x ≠ id r) (visible e s);
                pending := [] |})
        end
    end.

(** [[
    def delete_report(self, report_id):
        try:
            report = self.session.query(Report).get(report_id)
            if report:
                self.session.delete(report)
                self.session.commit()
                return True
            return False
        except Exception as e:
            self.session.rollback()
            return False
    ]] *)
Definition delete_report (e : engine) (f : faults) (report_id : Z)
    : M session bool :=
  try_except
    (report <- get_by_id e f report_id ;;
     match report with
     | Some r => delete_and_commit e f r ;;; ret true
     | None => ret false
     end)
    is_exception
    (fun _ => rollback ;;; ret false).

End DatabaseQueries.

(** ** Formatting numbers *)

Module PyFormat.

(** The decimal digits of a number, most significant first. *)
Fixpoint uint_digits (u : Decimal.uint) : pystr :=
  match u with
  | Decimal.Nil => []
  | Decimal.D0 u => 48%N :: uint_digits u
  | Decimal.D1 u => 49%N :: uint_digits u
  | Decimal.D2 u => 50%N :: uint_digits u
  | Decimal.D3 u => 51%N :: uint_digits u
  | Decimal.D4 u => 52%N :: uint_digits u
  | Decimal.D5 u => 53%N :: uint_digits u
  | Decimal.D6 u => 54%N :: uint_digits u
  | Decimal.D7 u => 55%N :: uint_digits u
  | Decimal.D8 u => 56%N :: uint_digits u
  | Decimal.D9 u => 57%N :: uint_digits u
  end.

(** [str(n)] for a non-negative [n] *)
Definition str_nat (n : nat) : pystr := uint_digits (Nat.to_uint n).

(** [s.zfill(width)] *)
Definition zfill (width : nat) (s : pystr) : pystr :=
  repeat 48%N (width - length s) ++ s.

Definition is_digit (c : N) : bool := ((48 <=? c) && (c <=? 57))%N.

End PyFormat.

(** ** utils/ai_processor.py: [GeminiProcessor] *)

Module AiProcessor.

Import PyFormat.

(** What the model answers; reading [response.text] may raise. *)
Record response := { text : result pystr }.

(** The model behind [self.model.generate_content]: its answer may depend
    on the prompts it was sent before, and the call may raise. *)
Record GeminiProcessor := {
  generate_content : list pystr -> pystr -> result response;
}.

Definition NL : pystr := [NEWLINE].

(** [f"Source {i+1}:\n{content}"] *)
Definition source_block (i : nat) (content : pystr) : pystr :=
  ustr "Source " ++ str_nat (i + 1) ++ ustr ":" ++ NL ++ content.

(** [[
    def _prepare_prompt(self, query, contents, prompt_template):
        combined_content = "\n\n".join(
            [f"Source {i+1}:\n{content}"
             for i, content in enumerate(contents)])
        prompt = f-string, on lines of their own:
            (empty line)
            Research Topic: {query}
            (empty line)
            {prompt_template}
            (empty line)
            Sources:
            {combined_content}
            (empty line)
            Please generate a comprehensive report based on the above sources. Include:
            1. Executive Summary
            2. Key Findings
            3. Analysis
            4. Recommendations
            5. Sources Used
            (empty line)
            Format the report in Markdown.
        return prompt
    ]] *)
Definition INSTRUCTIONS : pystr :=
  ustr "Please generate a comprehensive report based on the above sources. Include:" ++ NL
  ++ ustr "1. Executive Summary" ++ NL
  ++ ustr "2. Key Findings" ++ NL
  ++ ustr "3. Analysis" ++ NL
  ++ ustr "4. Recommendations" ++ NL
  ++ ustr "5. Sources Used" ++ NL ++ NL
  ++ ustr "Format the report in Markdown.".

Definition _prepare_prompt (query : pystr) (contents : list pystr)
    (prompt_template : pystr) : pystr :=
  let combined_content := join (NL ++ NL) (imap source_block contents) in
  NL ++ ustr "Research Topic: " ++ query ++ NL ++ NL
  ++ prompt_template ++ NL ++ NL
  ++ ustr "Sources:" ++ NL
  ++ combined_content ++ NL ++ NL
  ++ INSTRUCTIONS.

Definition NO_REPORT : pystr := ustr "Error: Unable to generate report".

Definition UNEXPECTED : pystr :=
  ustr "Error: Unable to generate report due to an unexpected error.".

(** [self.model.generate_content(prompt)]; the state is the list of
    prompts sent so far. *)
Definition send (self : GeminiProcessor) (prompt : pystr)
    : M (list pystr) response :=
  fun sent => (generate_content self sent prompt, sent ++ [prompt]).

Local Open Scope py_scope.

(** [[
    def generate_report(self, query, contents, prompt_template):
        try:
            prompt = self._prepare_prompt(query, contents, prompt_template)
            response = self.model.generate_content(prompt)
            return response.text if response.text else "Error: Unable to generate report"
        except Exception as e:
            print(f"Error generating report: {e}")
            return "Error: Unable to generate report due to an unexpected error."
    ]]
    The message printed by the handler is left out. *)
Definition generate_report (self : GeminiProcessor) (query : pystr)
    (contents : list pystr) (prompt_template : pystr)
    : M (list pystr) pystr :=
  try_except
    (let prompt := _prepare_prompt query contents prompt_template in
     response <- send self prompt ;;
     t <- lift (text response) ;;
     if falsy t then ret NO_REPORT
     else lift (text response))
    is_exception
    (fun _ => ret UNEXPECTED).

End AiProcessor.

(** ** utils/export.py: [ReportExporter] *)

Module Exporter.

Import PyFormat.

Definition SLASH : N := 47.
Definition UNDERSCORE : N := 95.
Definition DOT : N := 46.

(** [datetime.now()] *)
Record datetime := {
  year : nat; month : nat; day : nat;
  hour : nat; minute : nat; second : nat;
}.

(** The files on disk: the text each path holds. *)
Abbreviation files := (gmap pystr pystr).

(** What the exporter relies on: the character classes of Python, the
    clock, the disk, and the two document libraries. *)
Record system := {
  (** [c.isalnum()] *)
  isalnum : N -> bool;
  now : files -> datetime;
  (** [open(path, 'w')] fails *)
  open_error : files -> pystr -> option exn;
  (** [f.write(text)] fails *)
  write_error : files -> pystr -> pystr -> option exn;
  (** The bytes [FPDF] makes of a topic line and a content, or the
      exception one of its calls raises. *)
  fpdf : pystr -> pystr -> result pystr;
  (** The same for [docx.Document]. *)
  docx : pystr -> pystr -> result pystr;
}.

Definition EXPORT_DIR : pystr := ustr "exports".

(** [now.strftime("%Y%m%d_%H%M%S")], for the four-digit years of
    [datetime.now()]. *)
Definition strftime (d : datetime) : pystr :=
  zfill 4 (str_nat (year d)) ++ zfill 2 (str_nat (month d))
  ++ zfill 2 (str_nat (day d)) ++ [UNDERSCORE]
  ++ zfill 2 (str_nat (hour d)) ++ zfill 2 (str_nat (minute d))
  ++ zfill 2 (str_nat (second d)).

(** [format.lower()] on the ASCII names the callers pass. *)
Definition lower (s : pystr) : pystr :=
  map (fun c => if (65 <=? c) && (c <=? 90) then c + 32 else c)%N s.

(** [[
    def _get_filename(self, query, format):
        timestamp = datetime.now().strftime("%Y%m%d_%H%M%S")
        safe_query = "".join(c if c.isalnum() else "_" for c in query)[:30]
        return f"{safe_query}_{timestamp}.{format.lower()}"
    ]] *)
Definition _get_filename (sys : system) (query format : pystr)
    : M files pystr :=
  fun fs =>
    let timestamp := strftime (now sys fs) in
    let safe_query :=
      slice_to 30
        (map (fun c => if isalnum sys c then c else UNDERSCORE) query) in
    (Return (safe_query ++ [UNDERSCORE] ++ timestamp ++ [DOT] ++ lower format),
     fs).

(** [os.path.join(a, b)] *)
Definition path_join (a b : pystr) : pystr :=
  match b with
  | c :: _ =>
      if (c =? SLASH)%N then b
      else if falsy a || bool_decide (last a = Some SLASH) then a ++ b
      else a ++ [SLASH] ++ b
  | [] =>
      if falsy a || bool_decide (last a = Some SLASH) then a
      else a ++ [SLASH]
  end.

(** [open(path, 'w')]: the file is created, or emptied. *)
Definition open_w (sys : system) (path : pystr) : M files unit :=
  fun fs =>
    match open_error sys fs path with
    | Some x => (Raise x, fs)
    | None => (Return tt, <[path := EMPTY]> fs)
    end.

(** [f.write(text)] on the file opened at [path] *)
Definition write (sys : system) (path text : pystr) : M files unit :=
  fun fs =>
    match write_error sys fs path text with
    | Some x => (Raise x, fs)
    | None =>
        (Return tt, <[path := default EMPTY (fs !! path) ++ text]> fs)
    end.

Local Open Scope py_scope.

(** [[
    def export_txt(self, query, content):
        try:
            filename = self._get_filename(query, "txt")
            filepath = os.path.join(self.export_dir, filename)
            with open(filepath, 'w', encoding='utf-8') as f:
                f.write(f"Research Report\n\n")
                f.write(f"Topic: {query}\n\n")
                f.write(content)
            return filepath
        except Exception as e:
            return None
    ]] *)
Definition export_txt (sys : system) (query content : pystr)
    : M files (option pystr) :=
  try_except
    (filename <- _get_filename sys query (ustr "txt") ;;
     let filepath := path_join EXPORT_DIR filename in
     open_w sys filepath ;;;
     write sys filepath (ustr "Research Report" ++ [NEWLINE; NEWLINE]) ;;;
     write sys filepath (ustr "Topic: " ++ query ++ [NEWLINE; NEWLINE]) ;;;
     write sys filepath content ;;;
     ret (Some filepath))
    is_exception
    (fun _ => ret None).

(** [pdf.output(filepath)] and [doc.save(filepath)]: the document is
    written to the file. *)
Definition output (sys : system) (path bytes : pystr) : M files unit :=
  open_w sys path ;;; write sys path bytes.

(** [[
    def export_pdf(self, query, content):
        try:
            pdf = FPDF()
            ...
            pdf.cell(0, 10, f"Topic: {query}", ln=True)
            ...
            pdf.multi_cell(0, 10, content)
            filename = self._get_filename(query, "pdf")
            filepath = os.path.join(self.export_dir, filename)
            pdf.output(filepath)
            return filepath
        except Exception as e:
            return None
    ]] *)
Definition export_pdf (sys : system) (query content : pystr)
    : M files (option pystr) :=
  try_except
    (pdf <- lift (fpdf sys (ustr "Topic: " ++ query) content) ;;
     filename <- _get_filename sys query (ustr "pdf") ;;
     let filepath := path_join EXPORT_DIR filename in
     output sys filepath pdf ;;;
     ret (Some filepath))
    is_exception
    (fun _ => ret None).

(** [export_docx], built the same way on [docx.Document]. *)
Definition export_docx (sys : system) (query content : pystr)
    : M files (option pystr) :=
  try_except
    (doc <- lift (docx sys (ustr "Topic: " ++ query) content) ;;
     filename <- _get_filename sys query (ustr "docx") ;;
     let filepath := path_join EXPORT_DIR filename in
     output sys filepath doc ;;;
     ret (Some filepath))
    is_exception
    (fun _ => ret None).

End Exporter.

(** ** app.py: [search_page] *)

Module App.

Import PyFormat.

(** [st.session_state] *)
Record session_state := {
  search_results : list Search.search_result;
  selected_urls : list pystr;
  generated_report : pystr;
  current_query : pystr;
}.

(** [init_session_state] on a fresh session. *)
Definition init_session_state : session_state :=
  {| search_results := []; selected_urls := []; generated_report := EMPTY;
     current_query := EMPTY |}.

(** What the widgets of one run of the page answer. *)
Record widgets := {
  max_results : Z;
  time_filter : pystr;
  query : pystr;
  search_clicked : bool;
  (** [st.checkbox(label, key=key)] *)
  checkbox : pystr -> pystr -> bool;
  prompt_template : pystr;
  generate_clicked : bool;
}.

(** The collaborators created at the top of the module. *)
Record components := {
  search_engine : Search.GoogleSearch;
  extractor : Extractor.web;
  ai_processor : AiProcessor.GeminiProcessor;
  db : Database.engine;
}.

(** Everything a run of the page can change. *)
Record world := {
  requests : list Search.params;
  calls : list Extractor.net_call;
  prompts : list pystr;
  session : Database.session;
  state : session_state;
}.

Definition set_state (f : session_state -> session_state) (w : world)
    : world :=
  {| requests := requests w; calls := calls w; prompts := prompts w;
     session := session w; state := f (state w) |}.

(** Runs an extractor computation on the [calls] of the world. *)
Definition on_calls {A} (c : M (list Extractor.net_call) A) : M world A :=
  fun w =>
    let (r, calls') := c (calls w) in
    (r, {| requests := requests w; calls := calls'; prompts := prompts w;
           session := session w; state := state w |}).

Definition on_prompts {A} (c : M (list pystr) A) : M world A :=
  fun w =>
    let (r, prompts') := c (prompts w) in
    (r, {| requests := requests w; calls := calls w; prompts := prompts';
           session := session w; state := state w |}).

Definition on_session {A} (c : M Database.session A) : M world A :=
  fun w =>
    let (r, session') := c (session w) in
    (r, {| requests := requests w; calls := calls w; prompts := prompts w;
           session := session'; state := state w |}).

(** [search_engine.search(query, max_results=max_results,
    time_filter=time_filter)] *)
Definition run_search (c : components) (ui : widgets)
    : M world (list Search.search_result) :=
  fun w =>
    let (r, s) := Search.search (search_engine c) (query ui)
                    (max_results ui) (time_filter ui) in
    (r, {| requests := requests w ++ Search.sent s; calls := calls w;
           prompts := prompts w; session := session w; state := state w |}).

Local Open Scope py_scope.

(** [[
    query = st.text_input("Enter your research topic")
    st.session_state.current_query = query
    if st.button("Search"):
        results = search_engine.search(query, max_results=max_results,
                                       time_filter=time_filter)
        st.session_state.search_results = results
    ]] *)
Definition search_block (c : components) (ui : widgets) : M world unit :=
  modify (set_state (fun st =>
    {| search_results := search_results st;
       selected_urls := selected_urls st;
       generated_report := generated_report st;
       current_query := query ui |})) ;;;
  if search_clicked ui then
    results <- run_search c ui ;;
    modify (set_state (fun st =>
      {| search_results := results;
         selected_urls := selected_urls st;
         generated_report := generated_report st;
         current_query := current_query st |}))
  else ret tt.

(** [[
    for idx, result in enumerate(st.session_state.search_results):
        if st.checkbox(f"{result['title'][:60]}...", key=f"result_{idx}"):
            selected.append(result['url'])
    ]]
    from index [idx] on, [selected] being the list built so far. *)
Fixpoint select_loop (ui : widgets) (idx : nat)
    (results : list Search.search_result) (selected : list pystr)
    : list pystr :=
  match results with
  | [] => selected
  | result :: rest =>
      let label := slice_to 60 (Search.title result) ++ ustr "..." in
      let key := ustr "result_" ++ str_nat idx in
      select_loop ui (S idx) rest
        (if checkbox ui label key then selected ++ [Search.url result]
         else selected)
  end.

(** [[
    if st.session_state.search_results:
        selected = []
        for ...
        st.session_state.selected_urls = selected
    ]] *)
Definition select_block (ui : widgets) : M world unit :=
  modify (set_state (fun st =>
    match search_results st with
    | [] => st
    | _ =>
        {| search_results := search_results st;
           selected_urls := select_loop ui 0 (search_results st) [];
           generated_report := generated_report st;
           current_query := current_query st |}
    end)).

(** [[
    if st.button("Generate Report") and st.session_state.selected_urls:
        contents = []
        for url in st.session_state.selected_urls:
            content = extractor.extract(url)
            contents.append(content)
        report = ai_processor.generate_report(query, contents, prompt_template)
        st.session_state.generated_report = report
        db.save_report(query, report, st.session_state.selected_urls)
    ]] *)
Definition generate_block (c : components) (ui : widgets) : M world unit :=
  w <- get ;;
  match generate_clicked ui, selected_urls (state w) with
  | true, _ :: _ =>
      contents <-
        on_calls (Pipeline.build_contents (extractor c)
                    (selected_urls (state w))) ;;
      report <-
        on_prompts (AiProcessor.generate_report (ai_processor c) (query ui)
                      contents (prompt_template ui)) ;;
      modify (set_state (fun st =>
        {| search_results := search_results st;
           selected_urls := selected_urls st;
           generated_report := report;
           current_query := current_query st |})) ;;;
      on_session (Database.save_report (db c) (query ui) report
                    (selected_urls (state w))) ;;;
      ret tt
  | _, _ => ret tt
  end.

(** One run of [search_page], up to the export column; the widgets that
    only display are left out. *)
Definition search_page (c : components) (ui : widgets) : M world unit :=
  search_block c ui ;;; select_block ui ;;; generate_block c ui.

End App.

(** * Vocabulary of the properties, and the inputs they are tried on *)

Module NormalizerSpec.

(** A text is collapsed when its only whitespace is single spaces between
    words: [in_word] tells whether the character before [s] belongs to a
    word, and the text must end inside one. *)
Fixpoint collapsed_aux (in_word : bool) (s : pystr) : bool :=
  match s with
  | [] => in_word
  | c :: s' =>
      if is_space c then (c =? SPACE)%N && in_word && collapsed_aux false s'
      else collapsed_aux true s'
  end.

(** A word: a non-empty run without whitespace. *)
Definition word (w : pystr) : Prop :=
  w ≠ [] ∧ Forall (fun c => is_space c = false) w.

(** The whitespace-collapsed form [clean_content] cuts. *)
Definition collapse (x : pystr) : pystr := join [SPACE] (split x).

(** A text whose collapsed form has a space as its 50,000th character:
    49,999 letters, a space, one more letter. *)
Definition cut_text : pystr :=
  repeat 97%N (Z.to_nat 49999) ++ ustr " b".

(** A short text with every kind of blank in it. *)
Definition hello_text : pystr :=
  ustr "  Hello" ++ [TAB; NEWLINE] ++ ustr "  world " ++ [NEWLINE].

End NormalizerSpec.

Module SearchSpec.

Import Search.

(** The request [search] sends for one start offset. *)
Definition request (self : GoogleSearch) (query : pystr) (max_results : Z)
    (time_filter : pystr) (start_index : Z) : params :=
  set_start (initial_params self query max_results time_filter) start_index.

(** A request that ends in a transport error or an error status. *)
Definition page_fails (self : GoogleSearch) (p : params) : bool :=
  match transport self p with
  | inl _ => true
  | inr r => is_error_status r
  end.

(** What one request contributes to [results]: one entry per item of a
    successful answer, nothing otherwise. *)
Definition page_results (self : GoogleSearch) (p : params)
    : list search_result :=
  match transport self p with
  | inl _ => []
  | inr r =>
      if is_error_status r then []
      else map make_result (get_default (items (json r)) [])
  end.

(** A request answered without error by a page holding [its]. *)
Definition page_ok (self : GoogleSearch) (p : params) (its : list item)
    : Prop :=
  ∃ r, transport self p = inr r ∧ is_error_status r = false
       ∧ items (json r) = Some its.

End SearchSpec.

Module SearchExamples.

Import Search.

Definition ANY : pystr := ustr "Any".

(** An item with every field, numbered [n]. *)
Definition full_item (n : N) : item :=
  {| item_title := Some (ustr "title " ++ [(48 + n)%N]);
     item_link := Some (ustr "https://example.org/" ++ [(48 + n)%N]);
     item_snippet := Some (ustr "snippet") |}.

(** An item whose [link] key is missing. *)
Definition item_without_link : item :=
  {| item_title := Some (ustr "No link"); item_link := None;
     item_snippet := Some (ustr "snippet") |}.

Definition ok_response (its : list item) : response :=
  {| status_code := 200; json := {| items := Some its |} |}.

(** A provider with an unlimited supply: every request is answered with a
    full page of ten items. *)
Definition plentiful : GoogleSearch :=
  {| api_key := Some (ustr "k"); self_cx := Some (ustr "cx");
     transport := fun _ =>
       inr (ok_response (map full_item [0; 1; 2; 3; 4; 5; 6; 7; 8; 9]%N)) |}.

(** A provider whose only item has no link. *)
Definition linkless : GoogleSearch :=
  {| api_key := Some (ustr "k"); self_cx := Some (ustr "cx");
     transport := fun _ => inr (ok_response [item_without_link]) |}.

End SearchExamples.

Module RawSearchSpec.

Import PyObject RawSearch.

(** What reading one item gives. *)
Definition item_result (item : value) : result search_result :=
  match item with
  | VDict kvs =>
      Return {| title := get_default (dict_lookup (ustr "title") kvs) (VStr EMPTY);
                url := get_default (dict_lookup (ustr "link") kvs) (VStr EMPTY);
                snippet :=
                  get_default (dict_lookup (ustr "snippet") kvs) (VStr EMPTY) |}
  | _ => Raise AttributeError
  end.

(** What reading a list of items gives: the first exception, if any. *)
Fixpoint items_results (its : list value) : result (list search_result) :=
  match its with
  | [] => Return []
  | item :: its' =>
      match item_result item with
      | Raise e => Raise e
      | Return r =>
          match items_results its' with
          | Raise e => Raise e
          | Return rs => Return (r :: rs)
          end
      end
  end.

(** What reading a decoded body gives: the results of its items, [None]
    when it has no [items], or the exception raised on the way. *)
Definition body_results (data : value)
    : result (option (list search_result)) :=
  match contains (ustr "items") data with
  | Raise e => Raise e
  | Return false => Return None
  | Return true =>
      match getitem data (ustr "items") with
      | Raise e => Raise e
      | Return v =>
          match iter v with
          | Raise e => Raise e
          | Return its =>
              match items_results its with
              | Raise e => Raise e
              | Return rs => Return (Some rs)
              end
          end
      end
  end.

(** What a request comes to: the results of the answer, or the exception
    raised by the request, by the status check, by the decoding or by the
    reading of the body. *)
Definition page_answer (self : GoogleSearch) (p : Search.params)
    : result (option (list search_result)) :=
  match transport self p with
  | Raise e => Raise e
  | Return r =>
      if is_error_status r
      then Raise (RequestException (HTTPError (status_code r)))
      else match json r with
           | Raise e => Raise e
           | Return data => body_results data
           end
  end.

(** The exception a request ends in, if it ends in one. *)
Definition page_error (self : GoogleSearch) (p : Search.params)
    : option exn :=
  match page_answer self p with Raise e => Some e | Return _ => None end.

(** What a request contributes to [results]. *)
Definition page_results (self : GoogleSearch) (p : Search.params)
    : list search_result :=
  match page_answer self p with Return (Some rs) => rs | _ => [] end.

Definition is_dict (v : value) : bool :=
  match v with VDict _ => true | _ => false end.

(** A body as the provider documents it: a JSON object whose [items], if
    present, is an array of objects. *)
Definition well_formed (data : value) : bool :=
  match data with
  | VDict kvs =>
      match dict_lookup (ustr "items") kvs with
      | None => true
      | Some (VList its) => forallb is_dict its
      | Some _ => false
      end
  | _ => false
  end.

(** A provider all of whose failures are transport or HTTP errors: the
    request and the decoding raise nothing but a [RequestException], and
    the body of every answer without an error status is well formed. *)
Definition orderly (self : GoogleSearch) : Prop :=
  ∀ p,
    match transport self p with
    | Raise e => is_request_exception e = true
    | Return r =>
        is_error_status r = false →
        match json r with
        | Raise e => is_request_exception e = true
        | Return data => well_formed data = true
        end
    end.

End RawSearchSpec.

Module RawSearchExamples.

Import PyObject RawSearch.

Definition ok_response (data : value) : response :=
  {| status_code := 200; json := Return data |}.

(** An item with every field, numbered [n]. *)
Definition full_item (n : N) : value :=
  VDict [(ustr "title", VStr (ustr "title " ++ [(48 + n)%N]));
         (ustr "link", VStr (ustr "https://example.org/" ++ [(48 + n)%N]));
         (ustr "snippet", VStr (ustr "snippet"))].

(** A provider whose answers have the body [{"items": [1]}]. *)
Definition malformed : GoogleSearch :=
  {| api_key := Some (ustr "k"); self_cx := Some (ustr "cx");
     transport := fun _ =>
       Return (ok_response (VDict [(ustr "items", VList [VInt 1])])) |}.

(** A provider that answers the first page and then times out. *)
Definition flaky : GoogleSearch :=
  {| api_key := Some (ustr "k"); self_cx := Some (ustr "cx");
     transport := fun p =>
       match Search.start p with
       | Some 1 =>
           Return (ok_response
                     (VDict [(ustr "kind", VStr (ustr "customsearch#search"));
                             (ustr "items",
                              VList (map full_item [0; 1; 2]%N))]))
       | _ => Raise (RequestException Timeout)
       end |}.

End RawSearchExamples.

Module SearchDecoding.

Import PyObject.

(** The string a [dict] holds under [key]: [Some None] when the key is
    missing, [None] when the value is no string. *)
Definition decode_field (kvs : list (pystr * value)) (key : pystr)
    : option (option pystr) :=
  match dict_lookup key kvs with
  | None => Some None
  | Some (VStr s) => Some (Some s)
  | Some _ => None
  end.

(** An object whose [title], [link] and [snippet], if present, are
    strings, as a [Search.item]. *)
Definition decode_item (v : value) : option Search.item :=
  match v with
  | VDict kvs =>
      match decode_field kvs (ustr "title"), decode_field kvs (ustr "link"),
            decode_field kvs (ustr "snippet") with
      | Some t, Some l, Some s =>
          Some {| Search.item_title := t; Search.item_link := l;
                  Search.item_snippet := s |}
      | _, _, _ => None
      end
  | _ => None
  end.

Fixpoint decode_items (its : list value) : option (list Search.item) :=
  match its with
  | [] => Some []
  | v :: its' =>
      match decode_item v, decode_items its' with
      | Some it, Some l => Some (it :: l)
      | _, _ => None
      end
  end.

(** An object whose [items], if present, is a list of such items, as a
    [Search.search_data]. *)
Definition decode_body (data : value) : option Search.search_data :=
  match data with
  | VDict kvs =>
      match dict_lookup (ustr "items") kvs with
      | None => Some {| Search.items := None |}
      | Some (VList its) =>
          match decode_items its with
          | Some l => Some {| Search.items := Some l |}
          | None => None
          end
      | Some _ => None
      end
  | _ => None
  end.

(** What a provider does on a request, as an answer of [Search.provider]:
    a [RequestException] of the request or of the decoding is a transport
    error; the body behind an error status is not read. *)
Definition decode_answer (a : result RawSearch.response)
    : option (request_error + Search.response) :=
  match a with
  | Raise (RequestException e) => Some (inl e)
  | Raise (OtherException _) => None
  | Return r =>
      if RawSearch.is_error_status r then
        Some (inr {| Search.status_code := RawSearch.status_code r;
                     Search.json := {| Search.items := None |} |})
      else
        match RawSearch.json r with
        | Raise (RequestException e) => Some (inl e)
        | Raise (OtherException _) => None
        | Return data =>
            match decode_body data with
            | Some d =>
                Some (inr {| Search.status_code := RawSearch.status_code r;
                             Search.json := d |})
            | None => None
            end
        end
  end.

(** A provider whose answers all have this form. *)
Definition well_typed (raw : RawSearch.GoogleSearch) : Prop :=
  ∀ p, is_Some (decode_answer (RawSearch.transport raw p)).

(** The client of [Search] that stands for it. *)
Definition typed_of (raw : RawSearch.GoogleSearch) : Search.GoogleSearch :=
  {| Search.api_key := RawSearch.api_key raw;
     Search.self_cx := RawSearch.self_cx raw;
     Search.transport := fun p =>
       default (inl ConnectionError)
         (decode_answer (RawSearch.transport raw p)) |}.

(** A result of [Search] as the dictionary it stands for. *)
Definition encode_result (r : Search.search_result)
    : RawSearch.search_result :=
  {| RawSearch.title := VStr (Search.title r);
     RawSearch.url := VStr (Search.url r);
     RawSearch.snippet := VStr (Search.snippet r) |}.

Definition encode_state (s : Search.state) : RawSearch.state :=
  {| RawSearch.results := map encode_result (Search.results s);
     RawSearch.sent := Search.sent s |}.

Definition encode_search (run : result (list Search.search_result) * Search.state)
    : result (list RawSearch.search_result) * RawSearch.state :=
  (match run.1 with
   | Return rs => Return (map encode_result rs)
   | Raise e => Raise e
   end, encode_state run.2).

End SearchDecoding.

Module ExtractorExamples.

Import Html Extractor.

(** A stand-in for [validators.url] in the examples below: the scheme is
    all it looks at. *)
Definition scheme_only (url : pystr) : bool :=
  PyStr.eqb (take 7 url) (ustr "http://")
  || PyStr.eqb (take 8 url) (ustr "https://").

(** A web in which every host is unreachable: the first fetch finds
    nothing, the second raises. *)
Definition dead_web : web :=
  {| validators_url := scheme_only;
     trafilatura_fetch_url := fun _ _ => Return None;
     trafilatura_extract := fun _ => Return None;
     requests_get := fun _ _ => Raise (RequestException Timeout);
     html_parser := fun _ => Return [] |}.

(** The text of a long page: a double space, then 50,000 letters. *)
Definition long_text : pystr :=
  ustr "a  b" ++ repeat 120%N (Z.to_nat 50000).

(** A web whose pages all hold one long paragraph, found by the
    fallback. *)
Definition long_page_web : web :=
  {| validators_url := scheme_only;
     trafilatura_fetch_url := fun _ _ => Return None;
     trafilatura_extract := fun _ => Return None;
     requests_get := fun _ _ =>
       Return {| status_code := 200;
                 text := ustr "<p>" ++ long_text ++ ustr "</p>" |};
     html_parser := fun _ =>
       Return [Element (ustr "p") [Text long_text]] |}.

Definition LONG_URL : pystr := ustr "https://a.example/long".
Definition OK_URL : pystr := ustr "https://a.example/ok".
Definition DEAD_URL : pystr := ustr "https://b.example/dead".
Definition FTP_URL : pystr := ustr "ftp://x".

(** A web with one live page, [<p>Hello world</p>] at [OK_URL]; every
    other request times out. *)
Definition hello_web : web :=
  {| validators_url := scheme_only;
     trafilatura_fetch_url := fun _ _ => Return None;
     trafilatura_extract := fun _ => Return None;
     requests_get := fun _ url =>
       if PyStr.eqb url OK_URL
       then Return {| status_code := 200; text := ustr "<p>Hello world</p>" |}
       else Raise (RequestException Timeout);
     html_parser := fun _ =>
       Return [Element (ustr "p") [Text (ustr "Hello world")]] |}.

End ExtractorExamples.

Module DatabaseSpec.

Import Database.

(** The row written for an object. *)
Definition stamp (new_id now : Z) (o : Report) : Report :=
  {| id := Some new_id; query := query o; content := content o;
     sources := sources o; created_at := Some now |}.

(** The session after [session.add(r)]. *)
Definition added (s : session) (r : Report) : session :=
  {| table := table s; pending := pending s ++ [r] |}.

(** The object [save_report] builds. *)
Definition new_report (query content : pystr) (sources : list pystr)
    : Report :=
  {| id := None; query := query; content := content;
     sources := Json.dumps sources; created_at := None |}.

End DatabaseSpec.

Module DatabaseExamples.

Import Database DatabaseSpec.

(** An engine on which nothing fails. *)
Definition reliable : engine :=
  {| add_error := fun _ _ => None;
     commit_error := fun _ => None;
     utcnow := fun _ => 1700000000 |}.

(** An engine whose commits fail. *)
Definition read_only : engine :=
  {| add_error := fun _ _ => None;
     commit_error := fun _ => Some (OtherException "OperationalError");
     utcnow := fun _ => 1700000000 |}.

Definition empty_session : session := {| table := []; pending := [] |}.

(** A session that already holds one report. *)
Definition one_report : session :=
  {| table := [stamp 1 1690000000
                 (new_report (ustr "old") (ustr "text") [ustr "http://a.org/"])];
     pending := [] |}.

(** A URL with a character outside the basic plane (U+1F600). *)
Definition emoji_url : pystr := ustr "https://a.example/" ++ [128512%N].

(** The same URL with that character split into two surrogates. *)
Definition surrogate_url : pystr :=
  ustr "https://a.example/" ++ [55357%N; 56832%N].

End DatabaseExamples.

Module DatabaseQueriesSpec.
Import Database DatabaseQueries.

(** [q] occurs in [s], ASCII case aside. *)
Definition contains_nocase (s q : pystr) : Prop :=
  ∃ pre t post,
    s = pre ++ t ++ post ∧ map ascii_lower t = map ascii_lower q.

(** No [%] and no [_] in the text. *)
Definition wildcard_free (q : pystr) : Prop :=
  Forall (fun c => c ≠ PERCENT ∧ c ≠ UNDERSCORE) q.

(** No NUL in the text. *)
Definition nul_free (q : pystr) : Prop := Forall (fun c => c ≠ NUL) q.

(** No surrogate in the text: it has a UTF-8 form. *)
Definition encodable (q : pystr) : Prop :=
  Forall (fun c => is_surrogate c = false) q.

(** A search text the engine accepts and reads whole: it has a UTF-8 form,
    which between two [%] stays within the longest pattern, and holds no
    NUL. *)
Definition searchable (q : pystr) : Prop :=
  encodable q
  ∧ utf8_length q + 2 <= SQLITE_MAX_LIKE_PATTERN_LENGTH
  ∧ nul_free q.

(** A condition that is true: neither false nor an error. *)
Definition holds (a : result bool) : bool :=
  match a with Return true => true | _ => false end.

(** An engine on which no statement fails. *)
Definition healthy (e : engine) (f : faults) : Prop :=
  ∀ s r,
    add_error e s r = None ∧ commit_error e s = None
    ∧ select_error f s = None ∧ delete_error f s r = None.

End DatabaseQueriesSpec.

Module DatabaseQueriesExamples.
Import Database DatabaseSpec DatabaseExamples DatabaseQueries.

(** No statement fails. *)
Definition no_faults : faults :=
  {| select_error := fun _ => None; delete_error := fun _ _ => None |}.

End DatabaseQueriesExamples.

Module AiProcessorExamples.
Import AiProcessor.

(** A model that answers every prompt with the same report. *)
Definition helpful : GeminiProcessor :=
  {| generate_content := fun _ _ =>
       Return {| text := Return (ustr "# Report") |} |}.

(** A model whose answers are blocked: reading the text raises. *)
Definition blocked : GeminiProcessor :=
  {| generate_content := fun _ _ =>
       Return {| text := Raise (OtherException "ValueError") |} |}.

End AiProcessorExamples.

Module AppExamples.
Import App SearchExamples ExtractorExamples AiProcessorExamples DatabaseExamples.

(** A provider that finds nothing: every answer lacks the [items] key. *)
Definition fruitless : Search.GoogleSearch :=
  {| Search.api_key := Some (ustr "k"); Search.self_cx := Some (ustr "cx");
     Search.transport := fun _ =>
       inr {| Search.status_code := 200;
              Search.json := {| Search.items := None |} |} |}.

Definition fruitless_site : components :=
  {| search_engine := fruitless; extractor := hello_web;
     ai_processor := helpful; db := reliable |}.

(** A visitor who types a new topic and clicks Search. *)
Definition new_topic : widgets :=
  {| max_results := 10; time_filter := ANY; query := ustr "new topic";
     search_clicked := true; checkbox := fun _ _ => false;
     prompt_template := ustr "Summarise."; generate_clicked := false |}.

(** A visitor who ticks every box and clicks Generate. *)
Definition generate_all : widgets :=
  {| max_results := 10; time_filter := ANY; query := ustr "topic";
     search_clicked := false; checkbox := fun _ _ => true;
     prompt_template := ustr "Summarise."; generate_clicked := true |}.

(** A session left by an earlier run: one result, selected. *)
Definition earlier_run : world :=
  {| requests := []; calls := []; prompts := [];
     session := empty_session;
     state :=
       {| search_results :=
            [{| Search.title := ustr "Ok"; Search.url := OK_URL;
                Search.snippet := EMPTY |}];
          selected_urls := [OK_URL];
          generated_report := EMPTY;
          current_query := ustr "old topic" |} |}.

End AppExamples.

Module ExporterSpec.
Import Exporter.

(** A run that returns, and whose path, if it returns one, names a file
    directly inside [exports/] with the extension [ext]. *)
Definition confined (ext : pystr) (run : result (option pystr) * files)
    : Prop :=
  ∃ r fs',
    run = (Return r, fs')
    ∧ ∀ path, r = Some path →
        ∃ stem,
          path = ustr "exports/" ++ stem ++ [DOT] ++ ext
          ∧ (SLASH ∉ stem).

(** The file [export_txt] writes. *)
Definition txt_file (query content : pystr) : pystr :=
  (ustr "Research Report" ++ [NEWLINE; NEWLINE])
  ++ (ustr "Topic: " ++ query ++ [NEWLINE; NEWLINE]) ++ content.

End ExporterSpec.

Module ExporterExamples.
Import Exporter.

(** [isalnum] on ASCII: digits and letters. *)
Definition ascii_isalnum (c : N) : bool :=
  ((48 <=? c) && (c <=? 57) || (65 <=? c) && (c <=? 90)
   || (97 <=? c) && (c <=? 122))%N.

(** A system on which nothing fails, stopped at one moment. *)
Definition steady : system :=
  {| isalnum := ascii_isalnum;
     now := fun _ =>
       {| year := 2024; month := 3; day := 9;
          hour := 14; minute := 5; second := 7 |};
     open_error := fun _ _ => None;
     write_error := fun _ _ _ => None;
     fpdf := fun topic content => Return (ustr "%PDF " ++ topic ++ content);
     docx := fun topic content => Return (ustr "PK " ++ topic ++ content) |}.

End ExporterExamples.

(** * Properties *)

(** ** Strings *)

Lemma pystr_eqb_refl s : PyStr.eqb s s = true.
Proof. induction s as [|c s IH]; [done|]. cbn. by rewrite N.eqb_refl. Qed.

Lemma pystr_eqb_eq s t : PyStr.eqb s t = true ↔ s = t.
Proof.
  split; [|intros ->; apply pystr_eqb_refl].
  revert t. induction s as [|c s IH]; intros [|d t]; cbn; try done.
  intros H. apply andb_prop in H as [H1 H2]. apply N.eqb_eq in H1.
  f_equal; [done|by apply IH].
Qed.

(** ** The normalizer *)

Section NormalizerFacts.

Import Normalizer NormalizerSpec.

Lemma join_cons sep w v ws :
  join sep (w :: v :: ws) = w ++ sep ++ join sep (v :: ws).
Proof. reflexivity. Qed.

Lemma split_aux_nonempty s cur : cur ≠ [] → split_aux s cur ≠ [].
Proof.
  revert cur. induction s as [|c s IH]; intros cur Hcur; simpl.
  - destruct cur; congruence.
  - destruct (is_space c).
    + destruct cur; congruence.
    + apply IH. discriminate.
Qed.

Lemma collapsed_aux_starts s : collapsed_aux false s = true → split_aux s [] ≠ [].
Proof.
  destruct s as [|c s]; simpl; [discriminate|].
  destruct (is_space c) eqn:Hc.
  - rewrite andb_false_r. discriminate.
  - intros _. apply split_aux_nonempty. discriminate.
Qed.

Lemma join_split_aux s : ∀ cur b,
  collapsed_aux b s = true → (b = true ↔ cur ≠ []) →
  join [SPACE] (split_aux s cur) = reverse cur ++ s.
Proof.
  induction s as [|c s IH]; intros cur b Hs Hb; simpl in *.
  - subst b. destruct cur as [|d cur]; [by destruct Hb as [Hb _]; destruct Hb|].
    simpl. by rewrite app_nil_r.
  - destruct (is_space c) eqn:Hc.
    + apply andb_prop in Hs as [Hs Hs']. apply andb_prop in Hs as [Hc' Hb'].
      apply N.eqb_eq in Hc'. subst c b.
      destruct cur as [|d cur]; [by destruct Hb as [Hb _]; destruct Hb|].
      pose proof (collapsed_aux_starts s Hs') as Hne.
      specialize (IH [] false Hs').
      destruct (split_aux s []) as [|v vs] eqn:Hsp; [done|].
      rewrite join_cons, IH; [done|]. split; [discriminate|done].
    + rewrite (IH (c :: cur) true Hs); [|done].
      rewrite reverse_cons, <- app_assoc. done.
Qed.

Lemma split_aux_words s : ∀ cur,
  Forall (fun c => is_space c = false) cur → Forall word (split_aux s cur).
Proof.
  assert (Hrev : ∀ cur, cur ≠ [] → Forall (fun c => is_space c = false) cur →
                 word (reverse cur)).
  { intros cur Hne Hcur. split.
    - intros H. apply (f_equal length) in H. rewrite length_reverse in H.
      destruct cur; [done|discriminate].
    - by apply Forall_reverse. }
  induction s as [|c s IH]; intros cur Hcur; simpl.
  - destruct cur; [constructor|]. constructor; [|constructor]. by apply Hrev.
  - destruct (is_space c) eqn:Hc.
    + destruct cur; [by apply IH|]. constructor; [by apply Hrev|by apply IH].
    + apply IH. by constructor.
Qed.

Lemma collapsed_aux_word w rest b :
  word w → collapsed_aux b (w ++ rest) = collapsed_aux true rest.
Proof.
  intros [Hne Hw]. revert b. induction Hw as [|c w Hc Hw IH]; intros b; [done|].
  simpl. rewrite Hc. destruct w as [|d w]; [done|]. apply IH. done.
Qed.

Lemma join_words_collapsed ws :
  Forall word ws → ws ≠ [] → collapsed_aux false (join [SPACE] ws) = true.
Proof.
  induction 1 as [|w ws Hw Hws IH]; intros Hne; [done|].
  destruct ws as [|v vs].
  - simpl. rewrite <- (app_nil_r w). by rewrite collapsed_aux_word.
  - rewrite join_cons, collapsed_aux_word by done.
    simpl. apply IH. done.
Qed.

Lemma collapsed_aux_replace s : ∀ b,
  collapsed_aux b s = true →
  replace TAB SPACE (replace NEWLINE SPACE s) = s.
Proof.
  induction s as [|c s IH]; intros b Hs; [done|].
  simpl in Hs. unfold replace in *. simpl.
  destruct (is_space c) eqn:Hc.
  - apply andb_prop in Hs as [Hs Hs']. apply andb_prop in Hs as [Hc' _].
    apply N.eqb_eq in Hc'. subst c. simpl. f_equal. by apply (IH false).
  - assert ((c =? NEWLINE)%N = false) as ->.
    { apply N.eqb_neq. intros ->. discriminate. }
    assert ((c =? TAB)%N = false) as ->.
    { apply N.eqb_neq. intros ->. discriminate. }
    f_equal. by apply (IH true).
Qed.

Lemma collapsed_aux_take s : ∀ b n,
  collapsed_aux b s = true →
  take n s ≠ [] → last (take n s) ≠ Some SPACE →
  collapsed_aux b (take n s) = true.
Proof.
  induction s as [|c s IH]; intros b n Hs Hne Hlast.
  - by destruct n.
  - destruct n as [|n]; [done|]. simpl in *.
    destruct (is_space c) eqn:Hc.
    + apply andb_prop in Hs as [Hs Hs']. rewrite Hs. simpl.
      apply andb_prop in Hs as [Hc' _]. apply N.eqb_eq in Hc'. subst c.
      destruct (take n s) as [|d t] eqn:Ht; [done|].
      rewrite <- Ht. apply IH; [done|by rewrite Ht|by rewrite Ht].
    + destruct (take n s) as [|d t] eqn:Ht; [done|].
      rewrite <- Ht. apply IH; [done|by rewrite Ht|by rewrite Ht].
Qed.

(** What [clean_content] computes: the whitespace-collapsed text, cut at
    the cap. *)
Lemma clean_content_unfold x :
  clean_content x = take (Z.to_nat MAX_CONTENT) (join [SPACE] (split x)).
Proof.
  unfold clean_content. destruct x as [|c x]; [done|].
  cbn [falsy]. unfold slice_to. cbn [Z.leb MAX_CONTENT Z.compare].
  pose proof (split_aux_words (c :: x) [] ltac:(constructor)) as Hw.
  fold (split (c :: x)) in Hw.
  destruct (split (c :: x)) as [|w ws] eqn:Hsp; [done|].
  rewrite (collapsed_aux_replace _ false); [done|].
  apply join_words_collapsed; done.
Qed.

Lemma clean_content_collapsed x :
  clean_content x ≠ [] → last (clean_content x) ≠ Some SPACE →
  collapsed_aux false (clean_content x) = true.
Proof.
  rewrite clean_content_unfold. intros Hne Hlast.
  apply collapsed_aux_take; [|done..].
  pose proof (split_aux_words x [] ltac:(constructor)) as Hw.
  fold (split x) in Hw.
  apply join_words_collapsed; [done|].
  intros H. rewrite H in Hne. by destruct (Z.to_nat MAX_CONTENT).
Qed.

(** A collapsed text is a fixed point of the collapse. *)
Lemma collapse_fixed t : collapsed_aux false t = true → collapse t = t.
Proof.
  intros Hc. unfold collapse, split.
  by rewrite (join_split_aux _ [] false Hc).
Qed.

Lemma collapsed_aux_last s : ∀ b,
  collapsed_aux b s = true → s ≠ [] → last s ≠ Some SPACE.
Proof.
  induction s as [|c s IH]; intros b Hs Hne; [done|].
  simpl in Hs. destruct (is_space c) eqn:Hc.
  - apply andb_prop in Hs as [_ Hs]. destruct s as [|d s]; [done|].
    change (last (c :: d :: s)) with (last (d :: s)). by apply (IH false).
  - destruct s as [|d s].
    + cbn. intros [= ->]. discriminate.
    + change (last (c :: d :: s)) with (last (d :: s)). by apply (IH true).
Qed.

Lemma collapse_collapsed x :
  collapse x ≠ [] → collapsed_aux false (collapse x) = true.
Proof.
  unfold collapse. intros Hne.
  pose proof (split_aux_words x [] ltac:(constructor)) as Hw.
  fold (split x) in Hw.
  apply join_words_collapsed; [done|]. intros H. by rewrite H in Hne.
Qed.

Lemma length_join_split_aux s : ∀ cur,
  (length (join [SPACE] (split_aux s cur)) ≤ length cur + length s)%nat.
Proof.
  induction s as [|c s IH]; intros cur; simpl.
  - destruct cur; [done|]. cbn [join]. rewrite length_reverse. cbn. lia.
  - destruct (is_space c).
    + destruct cur as [|d cur]; [specialize (IH []); cbn in IH; lia|].
      specialize (IH []). cbn [length] in IH.
      destruct (split_aux s []) as [|v vs].
      * cbn [join]. rewrite length_reverse. cbn. lia.
      * rewrite join_cons, !length_app, length_reverse. cbn [length] in *. lia.
    + specialize (IH (c :: cur)). cbn [length] in IH. lia.
Qed.

Lemma length_collapse x : (length (collapse x) ≤ length x)%nat.
Proof. apply (length_join_split_aux x []). Qed.

Lemma length_clean_content x :
  Z.of_nat (length (clean_content x)) <= MAX_CONTENT.
Proof.
  rewrite clean_content_unfold, length_take. unfold MAX_CONTENT. lia.
Qed.

(** The cap: [clean_content] never returns more than 50,000 characters,
    and returns the empty string for the empty string. *)
Theorem clean_content_bounded x :
  Z.of_nat (length (clean_content x)) <= 50000
  ∧ clean_content EMPTY = EMPTY.
Proof. split; [apply length_clean_content|done]. Qed.

(** C4, as the specification states it, fails: on a text whose collapsed
    form has a space as its 50,000th character the first pass ends in that
    space and the second pass drops it. *)
Lemma clean_content_not_idempotent :
  ¬ (∀ x, clean_content (clean_content x) = clean_content x).
Proof.
  intros H. specialize (H cut_text).
  apply (f_equal (fun l => Z.of_nat (length l))) in H.
  vm_compute in H. discriminate.
Qed.

(** C4, amended: for every string [x] such that [clean_content x] does not
    end in a space, [clean_content (clean_content x) = clean_content x]. *)
Theorem clean_content_idempotent_unless_cut_at_space x :
  last (clean_content x) ≠ Some SPACE →
  clean_content (clean_content x) = clean_content x.
Proof.
  intros Hlast.
  destruct (clean_content x) as [|c t] eqn:Hx; [done|].
  rewrite <- Hx in *.
  assert (Hc : collapsed_aux false (clean_content x) = true).
  { apply clean_content_collapsed; [by rewrite Hx|done]. }
  rewrite (clean_content_unfold (clean_content x)).
  fold (collapse (clean_content x)). rewrite (collapse_fixed _ Hc).
  rewrite (clean_content_unfold x), take_take. f_equal; lia.
Qed.

Lemma clean_content_idempotent_unless_cut_at_space_witness :
  last (clean_content hello_text) ≠ Some SPACE
  ∧ clean_content (clean_content hello_text) = clean_content hello_text.
Proof.
  assert (H : last (clean_content hello_text) ≠ Some SPACE)
    by (vm_compute; discriminate).
  split; [exact H|].
  exact (clean_content_idempotent_unless_cut_at_space hello_text H).
Defined.

(** When the whitespace-collapsed form of [x] has at most 50,000
    characters, [clean_content] returns it whole and a second pass changes
    nothing. *)
Theorem clean_content_idempotent_short x :
  Z.of_nat (length (collapse x)) <= MAX_CONTENT →
  clean_content x = collapse x
  ∧ clean_content (clean_content x) = clean_content x.
Proof.
  intros Hlen.
  assert (Hx : clean_content x = collapse x).
  { rewrite clean_content_unfold. fold (collapse x). apply take_ge. lia. }
  split; [done|]. rewrite Hx.
  destruct (collapse x) as [|c t] eqn:Hc; [done|]. rewrite <- Hc in *.
  rewrite clean_content_unfold. fold (collapse (collapse x)).
  rewrite collapse_fixed; [apply take_ge; lia|].
  apply collapse_collapsed. by rewrite Hc.
Qed.

Lemma clean_content_idempotent_short_witness :
  clean_content hello_text = collapse hello_text
  ∧ clean_content (clean_content hello_text) = clean_content hello_text.
Proof.
  apply (clean_content_idempotent_short hello_text). by vm_compute.
Defined.

(** When [clean_content x] ends in a space, a second pass removes it: the
    two passes differ. *)
Theorem clean_content_drops_trailing_space x :
  last (clean_content x) = Some SPACE →
  clean_content (clean_content x) ≠ clean_content x.
Proof.
  intros Hlast Hfix.
  pose proof (length_clean_content x) as Hcap.
  set (t := clean_content x) in *.
  rewrite (clean_content_unfold t) in Hfix. fold (collapse t) in Hfix.
  pose proof (length_collapse t) as Hlen.
  rewrite take_ge in Hfix by (unfold MAX_CONTENT in *; lia).
  assert (Hne : collapse t ≠ []).
  { rewrite Hfix. intros H. by rewrite H in Hlast. }
  pose proof (collapsed_aux_last _ false (collapse_collapsed t Hne) Hne) as H.
  rewrite Hfix in H. done.
Qed.

Lemma clean_content_drops_trailing_space_witness :
  clean_content (clean_content cut_text) ≠ clean_content cut_text.
Proof.
  apply (clean_content_drops_trailing_space cut_text).
  assert (H : match last (clean_content cut_text) with
              | Some c => (c =? SPACE)%N
              | None => false
              end = true) by (vm_compute; reflexivity).
  destruct (last (clean_content cut_text)) as [c|]; [|discriminate].
  apply N.eqb_eq in H. by subst c.
Defined.

End NormalizerFacts.

(** ** The search client *)

Section SearchFacts.

Import Search SearchSpec.

Lemma range_empty stop : stop <= 1 → range 1 stop 10 = [].
Proof.
  intros H. unfold range.
  replace (Z.to_nat ((stop - 1 + 10 - 1) / 10)) with 0%nat; [done|].
  assert ((stop - 1 + 10 - 1) / 10 <= 0); [|lia].
  apply Z.lt_succ_r, Z.div_lt_upper_bound; lia.
Qed.

Lemma slice_to_take {A} m (l : list A) :
  0 <= m → slice_to m l = take (Z.to_nat m) l.
Proof. intros H. unfold slice_to. destruct (Z.leb_spec 0 m); [done|lia]. Qed.

Lemma flat_map_snoc {A B} (f : A → list B) l x :
  flat_map f (l ++ [x]) = flat_map f l ++ f x.
Proof. rewrite flat_map_app. simpl. by rewrite app_nil_r. Qed.

Section Loop.

(** The client, the [params] dictionary before [start] is set, and
    [max_results]. *)
Variables (self : GoogleSearch) (p : params) (m : Z).

(** The loop ends with the request [pk]. *)
Local Ltac last_request pk :=
  eexists _, _, [pk]; split; [done|]; cbn [results sent].

(** Fewer than [m] results: the cut keeps them all. *)
Local Ltac uncut := rewrite take_ge; [done|lia].

Lemma page_unfold k s :
  page self p m k s =
  let pk := set_start p k in
  let sent' := sent s ++ [pk] in
  match transport self pk with
  | inl e => (Raise (RequestException e),
              {| results := results s; sent := sent' |})
  | inr r =>
      if is_error_status r then
        (Raise (RequestException (HTTPError (status_code r))),
         {| results := results s; sent := sent' |})
      else
        match items (json r) with
        | None => (Return Break, {| results := results s; sent := sent' |})
        | Some its =>
            let rs := results s ++ map make_result its in
            if Z.of_nat (length rs) >=? m
            then (Return Break, {| results := slice_to m rs; sent := sent' |})
            else (Return Continue, {| results := rs; sent := sent' |})
        end
  end.
Proof.
  unfold page, bind, requests_get, raise_for_status. cbn zeta.
  destruct (transport self (set_start p k)) as [e|r]; [done|].
  destruct (is_error_status r); [done|]. cbn.
  destruct (items (json r)) as [its|]; [|done]. cbn.
  destruct (_ >=? m); done.
Qed.

(** The pagination loop, started in a state whose [results] are what the
    requests sent so far contributed and are fewer than [m]. *)
Lemma loop_spec : ∀ starts s,
  results s = flat_map (page_results self) (sent s) →
  Z.of_nat (length (results s)) < m →
  ∃ r s' extra,
    for_in starts (page self p m) s = (r, s')
    ∧ (r = Return tt ∨ ∃ e, r = Raise (RequestException e))
    ∧ sent s' = sent s ++ extra
    ∧ extra `prefix_of` map (set_start p) starts
    ∧ results s' = take (Z.to_nat m) (flat_map (page_results self) (sent s'))
    ∧ (∀ i q, extra !! i = Some q → page_fails self q = true →
         length extra = S i
         ∧ results s' = flat_map (page_results self) (sent s ++ take i extra)).
Proof.
  induction starts as [|k starts IH]; intros s Hres Hlen.
  - exists (Return tt), s, []. cbn. rewrite app_nil_r, <- Hres.
    split_and!; [done|by left|done|done|uncut|done].
  - cbn [for_in]. unfold bind at 1. rewrite page_unfold. cbn zeta.
    set (pk := set_start p k).
    assert (Hpre : [pk] `prefix_of` map (set_start p) (k :: starts)).
    { cbn. by apply prefix_cons, prefix_nil. }
    assert (Hstop : ∀ rs : list search_result,
      rs = flat_map (page_results self) (sent s) →
      page_fails self pk = true →
      ∀ i q, [pk] !! i = Some q → page_fails self q = true →
        length [pk] = S i
        ∧ rs = flat_map (page_results self) (sent s ++ take i [pk])).
    { intros rs Hrs _ i q Hi _. destruct i; [|by destruct i].
      cbn. by rewrite app_nil_r. }
    assert (Hnostop : page_fails self pk = false →
      ∀ (rs : list search_result) i q,
        [pk] !! i = Some q → page_fails self q = true →
        length [pk] = S i
        ∧ rs = flat_map (page_results self) (sent s ++ take i [pk])).
    { intros Hok rs i q Hi Hq. destruct i; [|by destruct i].
      cbn in Hi. injection Hi as <-. congruence. }
    unfold page_fails in Hstop, Hnostop.
    pose proof (flat_map_snoc (page_results self) (sent s) pk) as Hsnoc.
    unfold page_results at 3 in Hsnoc.
    destruct (transport self pk) as [e|r] eqn:Ht.
    { last_request pk. rewrite Hsnoc, app_nil_r, <- Hres.
      split_and!; [by right; eexists|done|done|uncut|by apply Hstop]. }
    destruct (is_error_status r) eqn:Hst.
    { last_request pk. rewrite Hsnoc, app_nil_r, <- Hres.
      split_and!; [by right; eexists|done|done|uncut|by apply Hstop]. }
    destruct (items (json r)) as [its|] eqn:Hits; cbn [get_default] in Hsnoc.
    2:{ last_request pk. rewrite Hsnoc. cbn [map]. rewrite app_nil_r, <- Hres.
        split_and!; [by left|done|done|uncut|by apply Hnostop]. }
    rewrite Z.geb_leb.
    destruct (Z.leb_spec m (Z.of_nat (length (results s ++ map make_result its))))
      as [Hge|Hlt].
    { last_request pk. rewrite Hsnoc, <- Hres.
      split_and!; [by left|done|done| |by apply Hnostop].
      apply slice_to_take. lia. }
    set (s1 := {| results := results s ++ map make_result its;
                  sent := sent s ++ [pk] |}).
    destruct (IH s1) as (r' & s' & extra & Hrun & Hr & Hsent & Hpre' & Hfin & Hfail).
    { subst s1. cbn [results sent]. by rewrite Hsnoc, <- Hres. }
    { done. }
    exists r', s', (pk :: extra). rewrite Hrun.
    split_and!; [done|done| | |done|].
    + rewrite Hsent. subst s1. cbn [sent]. by rewrite <- app_assoc.
    + cbn. by apply prefix_cons.
    + intros i q Hi Hq. destruct i as [|i].
      * cbn in Hi. injection Hi as <-. exfalso.
        specialize (Hnostop eq_refl [] 0%nat pk eq_refl).
        unfold page_fails in Hq. rewrite Ht in Hq. congruence.
      * cbn in Hi. destruct (Hfail i q Hi Hq) as [Hl Hr'].
        split; [cbn; lia|]. rewrite Hr'. subst s1. cbn [sent take].
        by rewrite <- app_assoc.
Qed.

End Loop.

(** [search] in full: it returns; the requests it sent are an initial
    part of the planned ones; what it returns is one entry per item of the
    successful answers, cut at [max_results]; a failed request is the last
    request, and the value returned is then what the earlier requests
    contributed. *)
Lemma search_spec self query m tf :
  ∃ st,
    search self query m tf = (Return (results st), st)
    ∧ sent st `prefix_of`
        map (request self query m tf) (range 1 (m + 1) 10)
    ∧ results st = take (Z.to_nat m) (flat_map (page_results self) (sent st))
    ∧ (∀ i q, sent st !! i = Some q → page_fails self q = true →
         length (sent st) = S i
         ∧ results st = flat_map (page_results self) (take i (sent st))).
Proof.
  unfold search, search_body, try_except, bind.
  destruct (Z.le_gt_cases m 0) as [Hm|Hm].
  - rewrite range_empty by lia. cbn.
    eexists {| results := []; sent := [] |}. cbn.
    split_and!; [done|done|by rewrite take_nil|done].
  - destruct (loop_spec self (initial_params self query m tf) m
                (range 1 (m + 1) 10) {| results := []; sent := [] |})
      as (r & s' & extra & Hrun & Hr & Hsent & Hpre & Hfin & Hfail);
      [done|cbn; lia|].
    cbn [sent app] in Hsent, Hfail. rewrite Hrun.
    exists s'. subst extra.
    split_and!; [|done|done|done].
    destruct Hr as [->|[e ->]]; done.
Qed.

End SearchFacts.

Section SearchClaims.
Import Search SearchSpec SearchExamples.

(** C2, as the specification states it, fails: a provider item without a
    [link] key comes back as a result whose [url] is the empty string. *)
Lemma search_result_url_may_be_empty :
  ¬ (∀ self query m tf rs st,
       search self query m tf = (Return rs, st) →
       Forall (fun r => url r ≠ EMPTY) rs).
Proof.
  intros H.
  specialize (H linkless (ustr "rocq") 10 ANY _ _ eq_refl).
  apply Forall_inv in H. by apply H.
Qed.

(** C2, amended: [search] keeps every item of every successful answer, in
    order, up to the cut at [max_results]; the [url] of a result is the
    item's [link], or the empty string when the item has no [link] key.
    Items without a link are not filtered out. *)
Theorem search_keeps_every_item self query m tf :
  ∃ st,
    search self query m tf = (Return (results st), st)
    ∧ results st = take (Z.to_nat m) (flat_map (page_results self) (sent st))
    ∧ (∀ p its, page_ok self p its →
         page_results self p = map make_result its)
    ∧ (∀ it, url (make_result it)
             = match item_link it with Some l => l | None => EMPTY end).
Proof.
  destruct (search_spec self query m tf) as (st & Hrun & _ & Hres & _).
  exists st. split_and!; [done|done| |done].
  intros p its (r & Ht & Hs & Hi). unfold page_results.
  by rewrite Ht, Hs, Hi.
Qed.

(** C6: for a non-negative [max_results], [search] returns at most
    [max_results] results; with [max_results = 25] and full pages of ten
    items at the offsets 1, 11 and 21 it sends exactly three requests, at
    these offsets and with [num = 10], and returns exactly 25 results. *)
Theorem search_pagination self query m tf :
  0 <= m →
  ∃ st,
    search self query m tf = (Return (results st), st)
    ∧ Z.of_nat (length (results st)) <= m
    ∧ (m = 25 →
       ∀ its1 its2 its3,
         page_ok self (request self query m tf 1) its1 →
         page_ok self (request self query m tf 11) its2 →
         page_ok self (request self query m tf 21) its3 →
         length its1 = 10%nat → length its2 = 10%nat → length its3 = 10%nat →
         map start (sent st) = [Some 1; Some 11; Some 21]
         ∧ Forall (fun p => num p = 10) (sent st)
         ∧ Z.of_nat (length (results st)) = 25).
Proof.
  intros Hm.
  destruct (search_spec self query m tf) as (st & Hrun & _ & Hres & _).
  exists st. split; [done|]. split.
  { rewrite Hres, length_take. lia. }
  intros -> its1 its2 its3 (r1 & Ht1 & Hs1 & Hi1) (r2 & Ht2 & Hs2 & Hi2)
    (r3 & Ht3 & Hs3 & Hi3) Hl1 Hl2 Hl3.
  unfold request in *.
  revert Hrun. unfold search, search_body, try_except.
  change (range 1 (25 + 1) 10) with [1; 11; 21].
  set (p := initial_params self query 25 tf) in *.
  unfold bind at 1. cbn [for_in].
  unfold bind at 1. unfold bind at 1. rewrite page_unfold. cbn zeta. cbn [results sent app].
  rewrite Ht1, Hs1, Hi1.
  rewrite Z.geb_leb. destruct (Z.leb_spec 25 (Z.of_nat (length (map make_result its1)))) as [H|_].
  { rewrite length_map in H. lia. }
  unfold bind at 1. rewrite page_unfold. cbn zeta. cbn [results sent app].
  rewrite Ht2, Hs2, Hi2.
  rewrite Z.geb_leb.
  destruct (Z.leb_spec 25 (Z.of_nat (length (map make_result its1 ++ map make_result its2)))) as [H|_].
  { rewrite length_app, !length_map in H. lia. }
  unfold bind at 1. rewrite page_unfold. cbn zeta. cbn [results sent app].
  rewrite Ht3, Hs3, Hi3.
  rewrite Z.geb_leb.
  destruct (Z.leb_spec 25 (Z.of_nat (length ((map make_result its1 ++ map make_result its2) ++ map make_result its3)))) as [_|H].
  2:{ rewrite !length_app, !length_map in H. lia. }
  cbn. intros Hrun. injection Hrun as Hrun. subst st. cbn [results sent].
  split_and!; [done| |].
  - repeat constructor.
  - rewrite length_take, !length_app, !length_map. lia.
Qed.

Lemma search_pagination_witness :
  ∃ st,
    search plentiful (ustr "rocq") 25 ANY = (Return (results st), st)
    ∧ Z.of_nat (length (results st)) <= 25
    ∧ map start (sent st) = [Some 1; Some 11; Some 21]
    ∧ Forall (fun p => num p = 10) (sent st)
    ∧ Z.of_nat (length (results st)) = 25.
Proof.
  destruct (search_pagination plentiful (ustr "rocq") 25 ANY ltac:(lia))
    as (st & Hrun & Hle & Hfull).
  exists st. split; [done|]. split; [done|].
  eapply (Hfull eq_refl);
    [eexists; split_and!; reflexivity..|reflexivity|reflexivity|reflexivity].
Defined.

(** The time filter: the four labels of the user interface map to the
    provider's tokens, anything else to no restriction. *)
Theorem get_date_restrict_table :
  _get_date_restrict (ustr "Past 24 hours") = Some (ustr "d1")
  ∧ _get_date_restrict (ustr "Past week") = Some (ustr "w1")
  ∧ _get_date_restrict (ustr "Past month") = Some (ustr "m1")
  ∧ _get_date_restrict (ustr "Past year") = Some (ustr "y1")
  ∧ (∀ tf,
       tf ∉ [ustr "Past 24 hours"; ustr "Past week"; ustr "Past month";
             ustr "Past year"] →
       _get_date_restrict tf = None).
Proof.
  split_and!; [done..|].
  intros tf Hne. unfold _get_date_restrict.
  repeat match goal with
  | |- context [PyStr.eqb tf ?l] =>
      destruct (PyStr.eqb tf l) eqn:E;
      [apply pystr_eqb_eq in E; subst tf; exfalso; apply Hne;
       rewrite !elem_of_cons; tauto|clear E]
  end.
  done.
Qed.

(** The requests [search] sends are an initial part of the planned ones:
    offsets 1, 11, 21, ... up to [max_results], each asking for
    [min(max_results, 10)] items with the query and the date restriction
    of the call. *)
Theorem search_requests_planned self query m tf :
  ∃ st,
    search self query m tf = (Return (results st), st)
    ∧ sent st `prefix_of`
        map (request self query m tf) (range 1 (m + 1) 10)
    ∧ Forall (fun p => num p = Z.min m 10 ∧ q p = query
                       ∧ dateRestrict p = _get_date_restrict tf) (sent st).
Proof.
  destruct (search_spec self query m tf) as (st & Hrun & Hpre & _).
  exists st. split_and!; [done..|].
  destruct Hpre as [rest Hpre].
  assert (H : Forall (fun p => num p = Z.min m 10 ∧ q p = query
                       ∧ dateRestrict p = _get_date_restrict tf)
                (map (request self query m tf) (range 1 (m + 1) 10))).
  { apply Forall_forall. intros p Hp.
    apply list_elem_of_In, in_map_iff in Hp as (k & <- & _). done. }
  rewrite Hpre in H. by apply Forall_app in H as [H _].
Qed.

End SearchClaims.

(** ** The search client, whatever the answers hold *)

Section RawSearchFacts.

Import PyObject RawSearch RawSearchSpec.

Lemma make_result_run item (s : state) :
  make_result item s
  = (match item_result item with
     | Return r => Return r
     | Raise e => Raise e
     end, s).
Proof. by destruct item. Qed.

Lemma comprehension_run its (s : state) :
  comprehension make_result its s
  = (match items_results its with
     | Return rs => Return rs
     | Raise e => Raise e
     end, s).
Proof.
  induction its as [|item its IH]; [done|].
  cbn [comprehension items_results]. unfold bind at 1.
  rewrite make_result_run.
  destruct (item_result item) as [r|e]; [|done].
  unfold bind at 1. rewrite IH.
  by destruct (items_results its).
Qed.

Section Loop.

Variables (self : GoogleSearch) (p : Search.params) (m : Z).

Lemma raw_page_unfold k s :
  page self p m k s =
  let pk := Search.set_start p k in
  let sent' := sent s ++ [pk] in
  match page_answer self pk with
  | Raise e => (Raise e, {| results := results s; sent := sent' |})
  | Return None => (Return Break, {| results := results s; sent := sent' |})
  | Return (Some new) =>
      let rs := results s ++ new in
      if Z.of_nat (length rs) >=? m
      then (Return Break, {| results := slice_to m rs; sent := sent' |})
      else (Return Continue, {| results := rs; sent := sent' |})
  end.
Proof.
  unfold page, page_answer, body_results. cbn zeta.
  unfold bind at 1. unfold requests_get.
  destruct (transport self (Search.set_start p k)) as [r|e]; [|done].
  unfold bind at 1. unfold raise_for_status.
  destruct (is_error_status r); [done|]. cbn [ret].
  unfold bind at 1. unfold lift at 1.
  destruct (json r) as [data|e]; [|done].
  unfold bind at 1. unfold lift at 1.
  destruct (contains (ustr "items") data) as [[]|e]; [|done|done].
  cbn [negb].
  unfold bind at 1. unfold lift at 1.
  destruct (getitem data (ustr "items")) as [v|e]; [|done].
  unfold bind at 1. unfold lift at 1.
  destruct (iter v) as [its|e]; [|done].
  unfold bind at 1. rewrite comprehension_run.
  destruct (items_results its) as [new|e]; [|done].
  cbn. destruct (_ >=? m); done.
Qed.

(** The pagination loop, started in a state whose [results] are what the
    requests sent so far contributed and are fewer than [m].  Either no
    request it sends ends in an exception and it returns, or the last
    request it sends ends in one, which it raises, [results] being what
    the requests before contributed. *)
Lemma raw_loop_outcome : ∀ starts s,
  results s = flat_map (page_results self) (sent s) →
  Z.of_nat (length (results s)) < m →
  ∃ r s' extra,
    for_in starts (page self p m) s = (r, s')
    ∧ sent s' = sent s ++ extra
    ∧ extra `prefix_of` map (Search.set_start p) starts
    ∧ results s' = take (Z.to_nat m) (flat_map (page_results self) (sent s'))
    ∧ (r = Return tt ∧ Forall (fun q => page_error self q = None) extra
       ∨ ∃ e pre q,
           r = Raise e ∧ extra = pre ++ [q]
           ∧ page_error self q = Some e
           ∧ Forall (fun q => page_error self q = None) pre
           ∧ results s' = flat_map (page_results self) (sent s ++ pre)).
Proof.
  induction starts as [|k starts IH]; intros s Hres Hlen.
  - exists (Return tt), s, []. cbn. rewrite app_nil_r, <- Hres.
    split_and!; [done|done|done|by rewrite take_ge by lia|by left].
  - cbn [for_in]. unfold bind at 1. rewrite raw_page_unfold. cbn zeta.
    set (pk := Search.set_start p k).
    assert (Hpre : [pk] `prefix_of` map (Search.set_start p) (k :: starts)).
    { cbn. by apply prefix_cons, prefix_nil. }
    pose proof (flat_map_snoc (page_results self) (sent s) pk) as Hsnoc.
    unfold page_results at 3 in Hsnoc.
    assert (Herr : page_error self pk
                   = match page_answer self pk with
                     | Raise e => Some e
                     | Return _ => None
                     end) by done.
    destruct (page_answer self pk) as [[new|]|e] eqn:Ha.
    + rewrite Z.geb_leb.
      destruct (Z.leb_spec m (Z.of_nat (length (results s ++ new))))
        as [Hge|Hlt].
      { eexists _, _, [pk]. split; [done|]. cbn [results sent].
        rewrite Hsnoc, <- Hres.
        split_and!; [done|done|apply slice_to_take; lia|].
        left. split; [done|]. by repeat constructor. }
      set (s1 := {| results := results s ++ new; sent := sent s ++ [pk] |}).
      destruct (IH s1) as (r' & s' & extra & Hrun & Hsent & Hpre' & Hfin & Hend).
      { subst s1. cbn [results sent]. by rewrite Hsnoc, <- Hres. }
      { done. }
      exists r', s', (pk :: extra). rewrite Hrun.
      assert (Hs1 : ∀ l, sent s1 ++ l = sent s ++ pk :: l).
      { intros l. subst s1. cbn [sent]. by rewrite <- app_assoc. }
      split_and!; [done| | |done|].
      * by rewrite Hsent, Hs1.
      * cbn. by apply prefix_cons.
      * destruct Hend as [[-> Hok]|(e & pre & q & -> & -> & Hq & Hok & Hacc)].
        { left. split; [done|]. by constructor. }
        right. exists e, (pk :: pre), q.
        split_and!; [done|done|done|by constructor|].
        by rewrite Hacc, Hs1.
    + eexists _, _, [pk]. split; [done|]. cbn [results sent].
      rewrite Hsnoc, app_nil_r, <- Hres.
      split_and!; [done|done|by rewrite take_ge by lia|].
      left. split; [done|]. by repeat constructor.
    + eexists _, _, [pk]. split; [done|]. cbn [results sent].
      rewrite Hsnoc, app_nil_r, <- Hres.
      split_and!; [done|done|by rewrite take_ge by lia|].
      right. exists e, [], pk.
      split_and!; [done|done|done|done|by rewrite app_nil_r].
Qed.

End Loop.

(** A request that ends in an exception is the last of the requests sent
    when those before it end in none. *)
Lemma failed_request_is_last (self : GoogleSearch) pre q e i p e' :
  Forall (fun q => page_error self q = None) pre →
  page_error self q = Some e →
  (pre ++ [q]) !! i = Some p →
  page_error self p = Some e' →
  i = length pre ∧ p = q ∧ e' = e.
Proof.
  intros Hok Hq Hi Hp.
  destruct (decide (i < length pre)%nat) as [Hlt|Hge].
  - rewrite lookup_app_l in Hi by done.
    rewrite Forall_forall in Hok.
    apply list_elem_of_lookup_2 in Hi. apply Hok in Hi. congruence.
  - rewrite lookup_app_r in Hi by lia.
    destruct (i - length pre)%nat as [|n] eqn:Hn; [|by destruct n].
    cbn in Hi. injection Hi as <-.
    split_and!; [lia|done|congruence].
Qed.

(** [search] in full. *)
Lemma search_outcome self query m tf :
  ∃ r st,
    search self query m tf = (r, st)
    ∧ sent st `prefix_of`
        map (Search.set_start (initial_params self query m tf))
            (range 1 (m + 1) 10)
    ∧ results st = take (Z.to_nat m) (flat_map (page_results self) (sent st))
    ∧ (r = Return (results st)
       ∧ (Forall (fun q => page_error self q = None) (sent st)
          ∨ ∃ e pre q,
              sent st = pre ++ [q]
              ∧ is_request_exception e = true
              ∧ page_error self q = Some e
              ∧ Forall (fun q => page_error self q = None) pre
              ∧ results st = flat_map (page_results self) pre)
       ∨ ∃ e pre q,
           r = Raise e
           ∧ is_request_exception e = false
           ∧ sent st = pre ++ [q]
           ∧ page_error self q = Some e
           ∧ Forall (fun q => page_error self q = None) pre
           ∧ results st = flat_map (page_results self) pre).
Proof.
  unfold search, search_body, try_except, bind.
  destruct (Z.le_gt_cases m 0) as [Hm|Hm].
  - rewrite range_empty by lia. cbn.
    eexists _, {| results := []; sent := [] |}. cbn.
    split_and!; [done|done|by rewrite take_nil|].
    left. split; [done|by left].
  - destruct (raw_loop_outcome self (initial_params self query m tf) m
                (range 1 (m + 1) 10) {| results := []; sent := [] |})
      as (r & s' & extra & Hrun & Hsent & Hpre & Hfin & Hend);
      [done|cbn; lia|].
    cbn [sent app] in Hsent, Hend. rewrite Hrun. subst extra.
    destruct Hend as [[-> Hok]|(e & pre & q & -> & Hq & He & Hok & Hacc)].
    { exists (Return (results s')), s'.
      split_and!; [done|done|done|]. left. split; [done|by left]. }
    destruct (is_request_exception e) eqn:Hreq; cbn.
    + exists (Return (results s')), s'.
      split_and!; [done|done|done|]. left. split; [done|].
      right. by exists e, pre, q.
    + exists (Raise e), s'.
      split_and!; [done|done|done|]. right. by exists e, pre, q.
Qed.

Lemma well_formed_reads data :
  well_formed data = true → ∃ o, body_results data = Return o.
Proof.
  destruct data as [| | | | | |kvs]; try done.
  unfold well_formed, body_results. cbn [contains getitem].
  destruct (dict_lookup (ustr "items") kvs) as [v|]; [|by eexists].
  destruct v as [| | | | |its|]; try done. cbn [iter].
  intros Hits.
  assert (∃ rs, items_results its = Return rs) as [rs ->]; [|by eexists].
  induction its as [|item its IH]; [by eexists|].
  cbn in Hits. apply andb_prop in Hits as [Hd Hits].
  destruct item; try done. cbn.
  destruct (IH Hits) as [rs ->]. by eexists.
Qed.

(** The requests to an orderly provider end in no other exception than a
    [RequestException]. *)
Lemma orderly_page_error self p e :
  orderly self → page_error self p = Some e → is_request_exception e = true.
Proof.
  intros Hself. specialize (Hself p). unfold page_error, page_answer.
  destruct (transport self p) as [r|x]; [|congruence].
  destruct (is_error_status r); [by intros [= <-]|].
  specialize (Hself eq_refl).
  destruct (json r) as [data|x]; [|congruence].
  destruct (well_formed_reads data Hself) as [o ->]. done.
Qed.

End RawSearchFacts.

Section RawSearchClaims.

Import SearchExamples PyObject RawSearch RawSearchSpec RawSearchExamples.

(** C7, as the specification states it, fails: an answer with status 200
    whose body is [{"items": [1]}] makes [search] raise [AttributeError]
    to its caller, after one request and with no result. *)
Lemma search_raises_on_malformed_body :
  ∃ st,
    search malformed (ustr "rocq") 10 ANY = (Raise AttributeError, st)
    ∧ results st = []
    ∧ map Search.start (sent st) = [Some 1].
Proof. by eexists. Qed.

(** C7, amended: [search] never raises a [requests.RequestException] to
    its caller.  A request that ends in an exception is the last request
    sent; when the exception is a [RequestException] (a transport error,
    an error status, a body that cannot be decoded) [search] returns what
    the requests before it had accumulated, the empty list when it was the
    first; an exception of another class is raised to the caller.  With an
    orderly provider, whose only failures are transport and HTTP errors
    and whose bodies are objects with a list of objects as [items], if
    any, [search] returns. *)
Theorem search_swallows_request_errors self query m tf :
  ∃ r st,
    search self query m tf = (r, st)
    ∧ (r = Return (results st)
       ∨ ∃ e, r = Raise e ∧ is_request_exception e = false)
    ∧ (∀ i p e, sent st !! i = Some p → page_error self p = Some e →
         length (sent st) = S i
         ∧ results st = flat_map (page_results self) (take i (sent st))
         ∧ r = if is_request_exception e then Return (results st)
               else Raise e)
    ∧ (orderly self → r = Return (results st)).
Proof.
  destruct (search_outcome self query m tf)
    as (r & st & Hrun & _ & _ & Hend).
  exists r, st. split; [done|].
  destruct Hend as [[-> [Hok|(e & pre & q & Hsent & He & Hq & Hok & Hacc)]]
                   |(e & pre & q & -> & He & Hsent & Hq & Hok & Hacc)].
  - split_and!; [by left| |done].
    intros i p e Hi Hp. rewrite Forall_forall in Hok.
    apply list_elem_of_lookup_2 in Hi. apply Hok in Hi. congruence.
  - split_and!; [by left| |done].
    intros i p e' Hi Hp. rewrite Hsent in Hi |- *.
    destruct (failed_request_is_last self pre q e i p e' Hok Hq Hi Hp)
      as (-> & -> & ->).
    rewrite length_app, take_app_length, He. cbn.
    split_and!; [lia|done|done].
  - split_and!; [right; by exists e| |].
    + intros i p e' Hi Hp. rewrite Hsent in Hi |- *.
      destruct (failed_request_is_last self pre q e i p e' Hok Hq Hi Hp)
        as (-> & -> & ->).
      rewrite length_app, take_app_length, He. cbn.
      split_and!; [lia|done|done].
    + intros Hself. apply (orderly_page_error self q e Hself) in Hq.
      congruence.
Qed.

Lemma flaky_orderly : orderly flaky.
Proof.
  intros p. unfold flaky. cbn [transport].
  destruct (Search.start p) as [[|[k|k|]|k]|]; done.
Qed.

Lemma search_swallows_request_errors_witness :
  ∃ r st,
    search flaky (ustr "rocq") 20 ANY = (r, st)
    ∧ length (sent st) = 2%nat
    ∧ results st = flat_map (page_results flaky) (take 1 (sent st))
    ∧ r = Return (results st)
    ∧ length (results st) = 3%nat.
Proof.
  destruct (search_swallows_request_errors flaky (ustr "rocq") 20 ANY)
    as (r & st & Hrun & _ & Hfail & Hreturns).
  exists r, st. split; [done|].
  specialize (Hreturns flaky_orderly).
  vm_compute in Hrun. injection Hrun as Hr Hst. subst st.
  destruct (Hfail 1%nat _ (RequestException Timeout) eq_refl eq_refl)
    as (Hlen & Hacc & _).
  split_and!; [done|done|done|done].
Defined.

(** Whatever the answers hold, and also when [search] raises: the requests
    sent are an initial part of the planned ones (offsets 1, 11, 21, ... up
    to [max_results]), each asking for [min(max_results, 10)] items with
    the query and the date restriction of the call; [results] holds what
    the requests contributed, cut at [max_results]; and a value returned
    is that list. *)
Theorem search_is_bounded_whatever_the_answers self query m tf :
  ∃ r st,
    search self query m tf = (r, st)
    ∧ sent st `prefix_of`
        map (Search.set_start (initial_params self query m tf))
            (range 1 (m + 1) 10)
    ∧ Forall (fun p => Search.num p = Z.min m 10 ∧ Search.q p = query
                       ∧ Search.dateRestrict p
                         = Search._get_date_restrict tf) (sent st)
    ∧ results st = take (Z.to_nat m) (flat_map (page_results self) (sent st))
    ∧ (0 <= m → Z.of_nat (length (results st)) <= m)
    ∧ (∀ rs, r = Return rs → rs = results st).
Proof.
  destruct (search_outcome self query m tf)
    as (r & st & Hrun & Hpre & Hres & Hend).
  exists r, st. split_and!; [done|done| |done| |].
  - destruct Hpre as [rest Hpre].
    assert (H : Forall (fun p => Search.num p = Z.min m 10
                         ∧ Search.q p = query
                         ∧ Search.dateRestrict p
                           = Search._get_date_restrict tf)
                  (map (Search.set_start (initial_params self query m tf))
                       (range 1 (m + 1) 10))).
    { apply Forall_forall. intros p Hp.
      apply list_elem_of_In, in_map_iff in Hp as (k & <- & _). done. }
    rewrite Hpre in H. by apply Forall_app in H as [H _].
  - intros Hm. rewrite Hres, length_take. lia.
  - intros rs ->. destruct Hend as [[[= ->] _]|(e & pre & q & ? & _)]; done.
Qed.

End RawSearchClaims.

(** ** [Search] and [RawSearch] *)

Section SearchDecodingFacts.

Import PyObject RawSearchSpec SearchDecoding.

Lemma slice_to_map {A B} (f : A → B) n l :
  slice_to n (map f l) = map f (slice_to n l).
Proof.
  unfold slice_to. rewrite length_map.
  destruct (0 <=? n); by rewrite <- !fmap_take.
Qed.

Lemma decode_item_result v it :
  decode_item v = Some it →
  item_result v = Return (encode_result (Search.make_result it)).
Proof.
  destruct v as [| | | | | |kvs]; try done.
  unfold decode_item, decode_field, item_result, encode_result,
    Search.make_result.
  destruct (dict_lookup (ustr "title") kvs) as [[]|];
    destruct (dict_lookup (ustr "link") kvs) as [[]|];
    destruct (dict_lookup (ustr "snippet") kvs) as [[]|];
    try done; by intros [= <-].
Qed.

Lemma decode_items_results its : ∀ l,
  decode_items its = Some l →
  items_results its
  = Return (map (fun it => encode_result (Search.make_result it)) l).
Proof.
  induction its as [|v its IH]; intros l; cbn.
  - by intros [= <-].
  - destruct (decode_item v) as [it|] eqn:Hv; [|done].
    destruct (decode_items its) as [l'|]; [|done].
    intros [= <-]. by rewrite (decode_item_result v it Hv), (IH l' eq_refl).
Qed.

Lemma decode_body_results data d :
  decode_body data = Some d →
  body_results data
  = Return (option_map (map (fun it => encode_result (Search.make_result it)))
              (Search.items d)).
Proof.
  destruct data as [| | | | | |kvs]; try done.
  unfold decode_body, body_results. cbn [contains getitem].
  destruct (dict_lookup (ustr "items") kvs) as [v|]; [|by intros [= <-]].
  destruct v as [| | | | |its|]; try done. cbn [iter].
  destruct (decode_items its) as [l|] eqn:Hl; [|done].
  intros [= <-]. by rewrite (decode_items_results its l Hl).
Qed.

Section Typed.

Variable raw : RawSearch.GoogleSearch.
Hypothesis Hraw : well_typed raw.

Lemma page_answer_typed p :
  page_answer raw p
  = match Search.transport (typed_of raw) p with
    | inl e => Raise (RequestException e)
    | inr r =>
        if Search.is_error_status r
        then Raise (RequestException (HTTPError (Search.status_code r)))
        else Return (option_map
                       (map (fun it => encode_result (Search.make_result it)))
                       (Search.items (Search.json r)))
    end.
Proof.
  destruct (Hraw p) as [a Ha]. cbn [typed_of Search.transport].
  rewrite Ha. cbn [default]. revert Ha.
  unfold page_answer, decode_answer.
  destruct (RawSearch.transport raw p) as [r|[e|]]; [|by intros [= <-]|done].
  unfold RawSearch.is_error_status, Search.is_error_status.
  destruct ((400 <=? RawSearch.status_code r)
            && (RawSearch.status_code r <? 600)) eqn:Hst.
  { intros [= <-]. cbn. by rewrite Hst. }
  destruct (RawSearch.json r) as [data|[e|]]; [|by intros [= <-]|done].
  destruct (decode_body data) as [d|] eqn:Hd; [|done].
  intros [= <-]. cbn. rewrite Hst. by apply decode_body_results.
Qed.

Lemma page_typed p m k s :
  RawSearch.page raw p m k (encode_state s)
  = let run := Search.page (typed_of raw) p m k s in
    (run.1, encode_state run.2).
Proof.
  rewrite raw_page_unfold, page_unfold. cbn zeta.
  rewrite page_answer_typed.
  destruct (Search.transport (typed_of raw) (Search.set_start p k))
    as [e|r]; [done|].
  destruct (Search.is_error_status r); [done|].
  destruct (Search.items (Search.json r)) as [its|]; [|done].
  cbn [option_map encode_state RawSearch.results RawSearch.sent
       Search.results Search.sent].
  rewrite <- (map_map Search.make_result encode_result), <- map_app.
  rewrite !length_map, slice_to_map.
  by destruct (_ >=? m).
Qed.

Lemma loop_typed p m starts : ∀ s,
  for_in starts (RawSearch.page raw p m) (encode_state s)
  = let run := for_in starts (Search.page (typed_of raw) p m) s in
    (run.1, encode_state run.2).
Proof.
  induction starts as [|k starts IH]; intros s; [done|].
  cbn [for_in]. unfold bind. rewrite page_typed. cbn zeta.
  destruct (Search.page (typed_of raw) p m k s) as [[[]|e] s1]; cbn [fst snd].
  - apply IH.
  - done.
  - done.
Qed.

(** On answers of the typed form, [RawSearch.search] does what
    [Search.search] does: the same requests, the same results, each a
    dictionary of three strings. *)
Lemma search_typed query m tf :
  RawSearch.search raw query m tf
  = encode_search (Search.search (typed_of raw) query m tf).
Proof.
  unfold RawSearch.search, Search.search, RawSearch.search_body,
    Search.search_body, encode_search, try_except, bind.
  change (RawSearch.initial_params raw query m tf)
    with (Search.initial_params (typed_of raw) query m tf).
  change {| RawSearch.results := []; RawSearch.sent := [] |}
    with (encode_state {| Search.results := []; Search.sent := [] |}).
  rewrite loop_typed. cbn zeta.
  destruct (for_in _ _ _) as [[[]|[e|]] s1]; done.
Qed.

End Typed.

(** A typed provider is orderly. *)
Lemma well_typed_orderly raw : well_typed raw → orderly raw.
Proof.
  intros Hraw p. destruct (Hraw p) as [a Ha]. revert Ha.
  unfold decode_answer.
  destruct (RawSearch.transport raw p) as [r|[e|]]; [|done|done].
  intros Ha Hst. rewrite Hst in Ha.
  destruct (RawSearch.json r) as [data|[e|]]; [|done|done].
  destruct (decode_body data) as [d|] eqn:Hd; [|done].
  clear Ha. destruct data as [| | | | | |kvs]; try done.
  unfold decode_body in Hd. unfold well_formed.
  destruct (dict_lookup (ustr "items") kvs) as [v|]; [|done].
  destruct v as [| | | | |its|]; try done.
  destruct (decode_items its) as [l|] eqn:Hl; [|done]. clear Hd.
  revert l Hl. induction its as [|v its IH]; intros l; [done|]. cbn.
  destruct (decode_item v) as [it|] eqn:Hv; [|done].
  destruct (decode_items its) as [l'|]; [|done].
  intros _. destruct v; try done. cbn. by eapply IH.
Qed.

End SearchDecodingFacts.

(** ** The extractor *)

Section ExtractorFacts.

Import Html Extractor ExtractorExamples.

Section World.

(** The libraries and the network, whatever they answer. *)
Variable w : web.

(** [extract] always returns. *)
Lemma extract_returns url calls :
  ∃ text calls', extract w url calls = (Return text, calls').
Proof.
  unfold extract. destruct (validators_url w url); cbn [negb].
  - unfold try_except. destruct (extract_body w url calls) as [[text|e] calls'].
    + by eexists _, _.
    + cbn. by eexists _, _.
  - by eexists _, _.
Qed.

(** C8: [extract] always returns a string and never raises.  For a URL
    the validator rejects it returns the empty string and makes no network
    call; when any stage of its body raises, whatever the exception, it
    returns the empty string. *)
Theorem extract_total url calls :
  ∃ text calls',
    extract w url calls = (Return text, calls')
    ∧ (validators_url w url = false → text = EMPTY ∧ calls' = calls)
    ∧ (∀ e calls1, validators_url w url = true →
         extract_body w url calls = (Raise e, calls1) →
         text = EMPTY ∧ calls' = calls1).
Proof.
  destruct (extract_returns url calls) as (text & calls' & Hrun).
  exists text, calls'. split; [done|].
  unfold extract, try_except in Hrun. split.
  - intros Hv. rewrite Hv in Hrun. cbn in Hrun. by injection Hrun as <- <-.
  - intros e calls1 Hv Hbody. rewrite Hv in Hrun. cbn [negb] in Hrun.
    rewrite Hbody in Hrun. cbn in Hrun. by injection Hrun as <- <-.
Qed.

End World.

Lemma extract_total_witness :
  (∃ text calls',
     extract dead_web FTP_URL [] = (Return text, calls')
     ∧ text = EMPTY ∧ calls' = [])
  ∧ (∃ text calls',
     extract dead_web DEAD_URL [] = (Return text, calls')
     ∧ text = EMPTY
     ∧ calls' = [FetchUrl DEAD_URL; HttpGet DEAD_URL USER_AGENT 10]).
Proof.
  split.
  - destruct (extract_total dead_web FTP_URL [])
      as (text & calls' & Hrun & Hbad & _).
    exists text, calls'. split; [done|]. apply Hbad. reflexivity.
  - destruct (extract_total dead_web DEAD_URL [])
      as (text & calls' & Hrun & _ & Hexn).
    exists text, calls'. split; [done|].
    eapply Hexn; reflexivity.
Defined.

End ExtractorFacts.

(** ** The corpus loop *)

Section PipelineFacts.

Import Html Extractor ExtractorExamples Pipeline Normalizer.

Section World.

(** The libraries and the network, whatever they answer. *)
Variable w : web.

(** The loop appends to [contents] one entry per URL, in order. *)
Lemma collect_spec : ∀ urls acc calls,
  ∃ texts calls',
    collect w urls acc calls = (Return (acc ++ texts), calls')
    ∧ length texts = length urls
    ∧ (∀ i url, urls !! i = Some url →
        ∃ text calls_i,
          extract w url (collect w (take i urls) acc calls).2
            = (Return text, calls_i)
          ∧ texts !! i = Some text).
Proof.
  induction urls as [|u urls IH]; intros acc calls.
  - exists [], calls. cbn. rewrite app_nil_r. done.
  - destruct (extract_returns w u calls) as (t & c1 & Ht).
    destruct (IH (acc ++ [t]) c1) as (texts & calls' & Hrun & Hlen & Hpos).
    exists (t :: texts), calls'.
    cbn [collect]. unfold bind at 1. rewrite Ht, Hrun, <- app_assoc.
    split; [done|]. split; [cbn; lia|].
    intros [|i] url Hi.
    + cbn in Hi. injection Hi as <-. exists t, c1. done.
    + cbn in Hi. destruct (Hpos i url Hi) as (text & ci & Hext & Hti).
      exists text, ci. split; [|done].
      cbn [take collect]. unfold bind at 1. by rewrite Ht.
Qed.

(** C9: the corpus loop returns one entry per selected URL, in selection
    order: entry [i] is what [extract] returned for URL [i], called after
    the extractions of the URLs before it.  Duplicates are extracted again,
    and a URL whose extraction fails contributes an empty entry at its
    position. *)
Theorem build_contents_positional urls calls :
  ∃ contents calls',
    build_contents w urls calls = (Return contents, calls')
    ∧ length contents = length urls
    ∧ (∀ i url, urls !! i = Some url →
        ∃ text calls_i,
          extract w url (build_contents w (take i urls) calls).2
            = (Return text, calls_i)
          ∧ contents !! i = Some text)
    ∧ (∀ i url, urls !! i = Some url → validators_url w url = false →
        contents !! i = Some EMPTY).
Proof.
  destruct (collect_spec urls [] calls)
    as (texts & calls' & Hrun & Hlen & Hpos).
  exists texts, calls'. split_and!; [done..|].
  intros i url Hi Hv. destruct (Hpos i url Hi) as (text & ci & Hext & Hti).
  rewrite Hti. f_equal. revert Hext. unfold extract. rewrite Hv. cbn.
  by intros [= <- _].
Qed.

End World.

Lemma build_contents_positional_witness :
  ∃ contents calls',
    build_contents dead_web [DEAD_URL; FTP_URL; DEAD_URL] []
      = (Return contents, calls')
    ∧ length contents = 3%nat
    ∧ contents !! 1%nat = Some EMPTY.
Proof.
  destruct (build_contents_positional dead_web
              [DEAD_URL; FTP_URL; DEAD_URL] [])
    as (contents & calls' & Hrun & Hlen & _ & Hbad).
  exists contents, calls'. split_and!; [done|done|].
  eapply Hbad; reflexivity.
Defined.

(** C1: the corpus loop hands over what [extract] returned without
    passing it through [clean_content]: for a page with one long paragraph
    the entry is longer than 50,000 characters and is not in normal
    form. *)
Theorem contents_not_normalized :
  ∃ calls,
    build_contents long_page_web [LONG_URL] [] = (Return [long_text], calls)
    ∧ MAX_CONTENT < Z.of_nat (length long_text)
    ∧ clean_content long_text ≠ long_text.
Proof.
  assert (Hrun :
    match build_contents long_page_web [LONG_URL] [] with
    | (Return [text], _) => PyStr.eqb text long_text
    | _ => false
    end = true) by (vm_compute; reflexivity).
  destruct (build_contents long_page_web [LONG_URL] [])
    as [[[|text [|]]|e] calls]; try discriminate.
  apply pystr_eqb_eq in Hrun as ->.
  exists calls. split; [done|]. split; [by vm_compute|].
  intros H. apply (f_equal (fun l => Z.of_nat (length l))) in H.
  vm_compute in H. discriminate.
Qed.

(** The two-source scenario: the first page holds [<p>Hello world</p>],
    the second times out.  The corpus is ["Hello world", ""], and each URL
    cost one fetch of each kind. *)
Theorem build_contents_hello :
  build_contents hello_web [OK_URL; DEAD_URL] []
  = (Return [ustr "Hello world"; EMPTY],
     [FetchUrl OK_URL; HttpGet OK_URL USER_AGENT 10;
      FetchUrl DEAD_URL; HttpGet DEAD_URL USER_AGENT 10]).
Proof. by vm_compute. Qed.

End PipelineFacts.

(** ** The stored source list *)

Section JsonFacts.

Import Json PyEval.

Lemma hex_value_digit d : (d < 16)%N → hex_value (hex_digit d) = Some d.
Proof.
  intros Hd. unfold hex_value, hex_digit.
  destruct (N.ltb_spec d 10).
  - replace ((48 <=? 48 + d) && (48 + d <=? 57))%N with true.
    + f_equal. lia.
    + symmetry. apply andb_true_intro. split; apply N.leb_le; lia.
  - replace ((48 <=? 87 + d) && (87 + d <=? 57))%N with false.
    2:{ symmetry. apply andb_false_intro2. apply N.leb_gt. lia. }
    replace ((97 <=? 87 + d) && (87 + d <=? 102))%N with true.
    + f_equal. lia.
    + symmetry. apply andb_true_intro. split; apply N.leb_le; lia.
Qed.

Lemma hex4_value c :
  (c < 65536)%N →
  (16 * (16 * (16 * (16 * 0 + c / 4096 mod 16) + c / 256 mod 16)
         + c / 16 mod 16) + c mod 16 = c)%N.
Proof. intros Hc. zify. Z.to_euclidean_division_equations. lia. Qed.

Lemma run_u_escape c acc cur rest :
  (c < 65536)%N →
  run (PStr acc DQUOTE cur) (u_escape c ++ rest)
  = run (PStr acc DQUOTE (c :: cur)) rest.
Proof.
  intros Hc. unfold u_escape, hex4.
  cbn [app run]. change (step (PStr acc DQUOTE cur) BACKSLASH)
    with (Some (PEsc acc DQUOTE cur)). cbn match.
  change (step (PEsc acc DQUOTE cur) 117%N) with (Some (PHex acc DQUOTE cur 4 0)).
  cbn match.
  cbn [step]. rewrite !hex_value_digit by (apply N.mod_lt; lia).
  cbn match. cbn [step]. rewrite !hex_value_digit by (apply N.mod_lt; lia).
  cbn match. cbn [step]. rewrite !hex_value_digit by (apply N.mod_lt; lia).
  cbn match. cbn [step]. rewrite !hex_value_digit by (apply N.mod_lt; lia).
  cbn match. cbn zeta. rewrite hex4_value by done.
  replace (c <=? 1114111)%N with true; [done|].
  symmetry. apply N.leb_le. lia.
Qed.

Lemma run_escape_char c acc cur rest :
  (c < 65536)%N →
  run (PStr acc DQUOTE cur) (escape_char c ++ rest)
  = run (PStr acc DQUOTE (c :: cur)) rest.
Proof.
  intros Hc. unfold escape_char.
  destruct (N.eqb_spec c BACKSLASH) as [->|Hb]; [done|].
  destruct (N.eqb_spec c DQUOTE) as [->|Hq]; [done|].
  destruct ((32 <=? c) && (c <=? 126))%N eqn:Hp.
  { apply andb_prop in Hp as [Hlo Hhi]. apply N.leb_le in Hlo.
    cbn [app run step].
    destruct (N.eqb_spec c DQUOTE); [done|].
    destruct (N.eqb_spec c BACKSLASH); [done|].
    destruct (N.eqb_spec c NEWLINE) as [->|]; [done|]. done. }
  destruct (N.eqb_spec c 8) as [->|]; [done|].
  destruct (N.eqb_spec c 12) as [->|]; [done|].
  destruct (N.eqb_spec c 10) as [->|]; [done|].
  destruct (N.eqb_spec c 13) as [->|]; [done|].
  destruct (N.eqb_spec c 9) as [->|]; [done|].
  destruct (N.ltb_spec c 65536); [|lia].
  by apply run_u_escape.
Qed.

Lemma run_escaped s : ∀ acc cur rest,
  Forall (fun c => (c < 65536)%N) s →
  run (PStr acc DQUOTE cur) (flat_map escape_char s ++ rest)
  = run (PStr acc DQUOTE (reverse s ++ cur)) rest.
Proof.
  induction s as [|c s IH]; intros acc cur rest Hs; [done|].
  apply Forall_cons in Hs as [Hc Hs].
  cbn [flat_map]. rewrite <- app_assoc, run_escape_char by done.
  rewrite IH by done. by rewrite reverse_cons, <- app_assoc.
Qed.

Lemma run_encode_str s acc rest :
  Forall (fun c => (c < 65536)%N) s →
  run (PItem acc) (encode_str s ++ rest) = run (PAfter (acc ++ [s])) rest.
Proof.
  intros Hs. unfold encode_str.
  change (run (PItem acc) ((DQUOTE :: flat_map escape_char s ++ [DQUOTE]) ++ rest))
    with (run (PStr acc DQUOTE []) ((flat_map escape_char s ++ [DQUOTE]) ++ rest)).
  rewrite <- app_assoc, run_escaped by done.
  rewrite app_nil_r. cbn [app run step]. rewrite N.eqb_refl.
  by rewrite reverse_involutive.
Qed.

Lemma run_items l : ∀ acc,
  l ≠ [] →
  Forall (Forall (fun c => (c < 65536)%N)) l →
  run (PItem acc) (join (ustr ", ") (map encode_str l) ++ ustr "]")
  = Some (acc ++ l).
Proof.
  induction l as [|s l IH]; intros acc Hne Hl; [done|].
  apply Forall_cons in Hl as [Hs Hl].
  destruct l as [|t l].
  - cbn [map join]. by rewrite run_encode_str.
  - change (map encode_str (s :: t :: l))
      with (encode_str s :: encode_str t :: map encode_str l).
    rewrite join_cons, <- !app_assoc, run_encode_str by done.
    change (run (PAfter (acc ++ [s]))
              (ustr ", " ++ join (ustr ", ") (encode_str t :: map encode_str l)
               ++ ustr "]"))
      with (run (PItem (acc ++ [s]))
              (join (ustr ", ") (map encode_str (t :: l)) ++ ustr "]")).
    rewrite IH by done. by rewrite <- app_assoc.
Qed.

(** Reading back a saved list recovers it when every character of every
    URL lies in the basic plane. *)
Theorem eval_dumps_basic_plane l :
  Forall (Forall (fun c => (c < 65536)%N)) l →
  eval (dumps l) = Some l.
Proof.
  intros Hl. unfold eval, dumps.
  change (run PStart (ustr "[" ++ join (ustr ", ") (map encode_str l) ++ ustr "]"))
    with (run (PItem []) (join (ustr ", ") (map encode_str l) ++ ustr "]")).
  destruct l as [|s l]; [done|].
  by rewrite run_items.
Qed.

Lemma eval_dumps_basic_plane_witness :
  eval (dumps [ustr "https://a.example/ok"; ustr "https://b.example/dead"])
  = Some [ustr "https://a.example/ok"; ustr "https://b.example/dead"].
Proof.
  apply (eval_dumps_basic_plane
           [ustr "https://a.example/ok"; ustr "https://b.example/dead"]).
  repeat constructor.
Defined.

End JsonFacts.

(** ** The report store *)

Section DatabaseFacts.

Import Database DatabaseSpec DatabaseExamples.

Lemma flush_snoc now : ∀ objs rows o,
  flush now rows (objs ++ [o])
  = flush now rows objs ++ [stamp (next_id (flush now rows objs)) now o].
Proof.
  induction objs as [|p objs IH]; intros rows o; [done|].
  cbn [flush app]. apply IH.
Qed.

Lemma flush_extends now : ∀ objs rows,
  ∃ written, flush now rows objs = rows ++ written.
Proof.
  induction objs as [|p objs IH]; intros rows.
  - exists []. cbn. by rewrite app_nil_r.
  - cbn [flush]. destruct (IH (rows ++ [stamp (next_id rows) now p])) as [w Hw].
    exists (stamp (next_id rows) now p :: w). unfold stamp in *.
    rewrite Hw, <- app_assoc. done.
Qed.

(** C10: [save_report] never raises.  When neither the add nor the commit
    fails it returns [True] and the table has gained the new report as its
    last row (after the rows of anything that was still pending).  When
    either fails it returns [False], the table is as it was and nothing is
    left pending. *)
Theorem save_report_atomic e query content sources s :
  let report := new_report query content sources in
  (∃ s' earlier new_id now,
     save_report e query content sources s = (Return true, s')
     ∧ add_error e s report = None
     ∧ commit_error e (added s report) = None
     ∧ table s' = table s ++ earlier ++ [stamp new_id now report]
     ∧ pending s' = [])
  ∨ (∃ s' x,
     save_report e query content sources s = (Return false, s')
     ∧ (add_error e s report = Some x
        ∨ commit_error e (added s report) = Some x)
     ∧ table s' = table s
     ∧ pending s' = []).
Proof.
  intros report.
  unfold save_report, try_except, bind, add, commit, rollback, modify, ret.
  fold (new_report query content sources). fold report. fold (added s report).
  destruct (add_error e s report) as [x|] eqn:Hadd.
  { right. exists {| table := table s; pending := [] |}, x. auto. }
  destruct (commit_error e (added s report)) as [x|] eqn:Hcommit.
  { right. exists {| table := table s; pending := [] |}, x. auto. }
  left. cbn [table pending added]. rewrite flush_snoc.
  destruct (flush_extends (utcnow e (added s report)) (pending s) (table s))
    as [earlier Hw].
  eexists _, earlier, _, _. split; [done|]. cbn [table pending].
  split_and!; [done|done| |done]. rewrite Hw at 1. by rewrite <- app_assoc.
Qed.

(** On an engine whose commits fail, [save_report] returns [False] and
    the one stored report is still the only one. *)
Example save_report_read_only :
  save_report read_only (ustr "q") (ustr "report") [ustr "http://b.org/"]
    one_report
  = (Return false, one_report).
Proof. reflexivity. Qed.

(** On a working engine the report is stored after it, with the next
    identifier. *)
Example save_report_reliable :
  save_report reliable (ustr "q") (ustr "report") [ustr "http://b.org/"]
    one_report
  = (Return true,
     {| table := table one_report
                 ++ [stamp 2 1700000000
                       (new_report (ustr "q") (ustr "report")
                          [ustr "http://b.org/"])];
        pending := [] |}).
Proof. reflexivity. Qed.

(** C3: the stored source list is read back with [eval].  For a URL with
    a character outside the basic plane the save succeeds, and the list
    read back holds two surrogates in place of that character: it is not
    the list that was saved. *)
Theorem saved_sources_not_recovered :
  ∃ report,
    save_report reliable (ustr "q") (ustr "report") [emoji_url] empty_session
      = (Return true, {| table := [report]; pending := [] |})
    ∧ KnowledgeBase.report_sources report = Some [surrogate_url]
    ∧ KnowledgeBase.report_sources report ≠ Some [emoji_url].
Proof.
  eexists. split; [reflexivity|]. split; [by vm_compute|].
  vm_compute. discriminate.
Qed.

End DatabaseFacts.

(** ** The report store: queries and deletion *)

Section DatabaseQueriesFacts.

Import Database DatabaseSpec DatabaseExamples DatabaseQueries
  DatabaseQueriesExamples DatabaseQueriesSpec.

Lemma not_older_spec a b :
  not_older a b ↔
  match created_at b, created_at a with
  | None, _ => True
  | Some _, None => False
  | Some y, Some x => y <= x
  end.
Proof.
  unfold not_older, not_olderb.
  destruct (created_at b) as [y|], (created_at a) as [x|]; cbn; try done.
  rewrite Is_true_true. apply Z.leb_le.
Qed.

#[local] Instance not_older_total : Total not_older.
Proof.
  intros a b. rewrite !not_older_spec.
  destruct (created_at a) as [x|], (created_at b) as [y|]; auto. lia.
Qed.

#[local] Instance not_older_trans : Transitive not_older.
Proof.
  intros a b c. rewrite !not_older_spec.
  destruct (created_at a) as [x|], (created_at b) as [y|],
    (created_at c) as [z|]; try done. lia.
Qed.

Lemma sql_limit_sublist n rows : sql_limit n rows `sublist_of` rows.
Proof. unfold sql_limit. destruct (n <? 0); [done|apply sublist_take]. Qed.

Lemma StronglySorted_sublist {A} (R : relation A) l k :
  l `sublist_of` k → StronglySorted R k → StronglySorted R l.
Proof.
  induction 1 as [|x l k Hlk IH|x l k Hlk IH]; intros Hk; [done| |].
  - apply StronglySorted_inv in Hk as [Hk Hx].
    constructor; [by apply IH|].
    apply Forall_forall. intros y Hy.
    rewrite Forall_forall in Hx. apply Hx. by eapply elem_of_sublist.
  - apply StronglySorted_inv in Hk as [Hk _]. by apply IH.
Qed.

(** What a [SELECT] answers when it does not fail. *)
Lemma select_spec e f cond limit s :
  select_error f s = None →
  ∃ rows,
    select e f cond limit s = (Return rows, s)
    ∧ StronglySorted not_older rows
    ∧ rows `sublist_of`
        order_by_created_desc
          (filter (fun r => Is_true (cond r)) (visible e s))
    ∧ (limit = None →
       rows ≡ₚ filter (fun r => Is_true (cond r)) (visible e s)).
Proof.
  intros Hok. unfold select. rewrite Hok.
  set (sorted := order_by_created_desc _).
  assert (Hs : StronglySorted not_older sorted)
    by (apply StronglySorted_merge_sort; apply _).
  eexists. split; [done|].
  destruct limit as [n|].
  - split_and!; [|apply sql_limit_sublist|done].
    eapply StronglySorted_sublist; [apply sql_limit_sublist|done].
  - split_and!; [done|done|]. intros _. apply merge_sort_Permutation.
Qed.

(** [get_reports] never raises and leaves the session as it was.  The rows
    it returns are stored rows, each at most once more than it is stored,
    newest first; for a non-negative [limit] there are [min(limit, n)] of
    them, [n] being the number of stored rows; when the query fails the
    answer is the empty list. *)
Theorem get_reports_newest_first e f limit s :
  ∃ rows,
    get_reports e f limit s = (Return rows, s)
    ∧ StronglySorted not_older rows
    ∧ rows ⊆+ visible e s
    ∧ (0 <= limit → Z.of_nat (length rows) <= limit)
    ∧ (select_error f s = None → 0 <= limit →
       Z.of_nat (length rows)
       = Z.min limit (Z.of_nat (length (visible e s))))
    ∧ (select_error f s ≠ None → rows = []).
Proof.
  unfold get_reports, try_except.
  destruct (select_error f s) as [x|] eqn:Herr.
  - unfold select. rewrite Herr. cbn. exists [].
    split_and!; [done|constructor|apply submseteq_nil_l|cbn; lia|done|done].
  - unfold select. rewrite Herr.
    set (all := filter (fun r => Is_true true) (visible e s)).
    assert (Hall : all = visible e s).
    { subst all. induction (visible e s) as [|r l IH]; [done|].
      rewrite filter_cons_True by done. by rewrite IH. }
    rewrite Hall. clear all Hall.
    set (sorted := order_by_created_desc (visible e s)).
    assert (Hperm : sorted ≡ₚ visible e s) by apply merge_sort_Permutation.
    assert (Hs : StronglySorted not_older sorted)
      by (apply StronglySorted_merge_sort; apply _).
    exists (sql_limit limit sorted).
    split_and!; [done| | | | |done].
    + eapply StronglySorted_sublist; [apply sql_limit_sublist|done].
    + rewrite <- Hperm. apply sublist_submseteq, sql_limit_sublist.
    + intros Hl. unfold sql_limit. destruct (Z.ltb_spec limit 0); [lia|].
      rewrite length_take. lia.
    + intros _ Hl. unfold sql_limit. destruct (Z.ltb_spec limit 0); [lia|].
      rewrite length_take, <- Hperm. lia.
Qed.

(** *** [LIKE] *)

(** The two answers of the engine on a NUL: a string is read up to its
    first NUL, and so is a pattern. *)
Lemma like_stops_at_nul :
  like (ustr "%b%") ([97; NUL; 98]%N) = Return false
  ∧ like ([PERCENT; NUL; PERCENT]) (ustr "abc") = Return true.
Proof. done. Qed.

Lemma c_string_nul_free s : nul_free s → c_string s = s.
Proof.
  induction 1 as [|c s Hc Hs IH]; [done|]. cbn.
  destruct (N.eqb_spec c NUL); [done|]. by rewrite IH.
Qed.

Lemma ascii_lower_nul c : ascii_lower c = NUL ↔ c = NUL.
Proof.
  unfold ascii_lower, NUL.
  destruct ((65 <=? c) && (c <=? 90))%N eqn:H; [|done].
  apply andb_prop in H as [H1 H2]. apply N.leb_le in H1, H2. lia.
Qed.

(** [lower] neither adds nor removes a NUL. *)
Lemma c_string_lower s : c_string (sql_lower s) = sql_lower (c_string s).
Proof.
  unfold sql_lower. induction s as [|c s IH]; [done|].
  cbn [map c_string].
  destruct (N.eqb_spec c NUL) as [->|Hc]; [done|].
  destruct (N.eqb_spec (ascii_lower c) NUL) as [H|_].
  - by apply (proj1 (ascii_lower_nul c)) in H.
  - cbn [map]. by rewrite IH.
Qed.

Lemma nul_free_pattern q : nul_free q → nul_free ([PERCENT] ++ q ++ [PERCENT]).
Proof.
  intros Hq. apply Forall_app. split; [by repeat constructor|].
  apply Forall_app. split; [done|by repeat constructor].
Qed.

(** [lower] keeps the length in bytes. *)
Lemma utf8_size_lower c : utf8_size (ascii_lower c) = utf8_size c.
Proof.
  unfold ascii_lower, utf8_size.
  destruct ((65 <=? c) && (c <=? 90))%N eqn:H; [|done].
  apply andb_prop in H as [H1 H2]. apply N.leb_le in H1, H2.
  destruct (N.ltb_spec (c + 32) 128), (N.ltb_spec c 128); try done; lia.
Qed.

Lemma utf8_length_lower s : utf8_length (sql_lower s) = utf8_length s.
Proof.
  unfold sql_lower, utf8_length. induction s as [|c s IH]; [done|].
  cbn [map foldr]. by rewrite utf8_size_lower, IH.
Qed.

Lemma utf8_length_app s t :
  utf8_length (s ++ t) = utf8_length s + utf8_length t.
Proof.
  unfold utf8_length. induction s as [|c s IH]; cbn [app foldr]; [done|].
  rewrite IH. lia.
Qed.

Lemma utf8_length_pattern q :
  utf8_length ([PERCENT] ++ q ++ [PERCENT]) = utf8_length q + 2.
Proof.
  rewrite !utf8_length_app.
  change (utf8_length [PERCENT]) with 1. lia.
Qed.

(** Binding returns the text or raises; it returns the text exactly when
    the text holds no surrogate. *)
Lemma bind_text_spec s :
  (encodable s ∧ bind_text s = Return s)
  ∨ (¬ encodable s ∧ ∃ x, bind_text s = Raise x).
Proof.
  unfold bind_text, encodable.
  destruct (existsb is_surrogate s) eqn:H.
  - right. split; [|by eexists]. intros Hs.
    apply existsb_exists in H as (c & Hc & Hsur).
    rewrite Forall_forall in Hs. apply list_elem_of_In, Hs in Hc. congruence.
  - left. split; [|done]. apply Forall_forall. intros c Hc.
    destruct (is_surrogate c) eqn:Hsur; [|done].
    assert (existsb is_surrogate s = true); [|congruence].
    apply existsb_exists. exists c. by rewrite <- list_elem_of_In.
Qed.

Lemma encodable_pattern q :
  encodable ([PERCENT] ++ q ++ [PERCENT]) ↔ encodable q.
Proof.
  unfold encodable. rewrite !Forall_app, !Forall_singleton.
  change (is_surrogate PERCENT) with false. tauto.
Qed.

(** [ilike] against a pattern within the longest pattern and without NUL:
    the pattern is read whole, the string up to its first NUL. *)
Lemma ilike_c_string s pat :
  utf8_length pat <= SQLITE_MAX_LIKE_PATTERN_LENGTH →
  nul_free pat →
  ilike s pat
  = Return (patternCompare (sql_lower pat) (sql_lower (c_string s))).
Proof.
  intros Hlen Hpat. unfold ilike, like. rewrite utf8_length_lower.
  destruct (Z.ltb_spec SQLITE_MAX_LIKE_PATTERN_LENGTH (utf8_length pat));
    [lia|].
  by rewrite !c_string_lower, (c_string_nul_free pat).
Qed.

(** Whether [ilike] fails depends on the pattern alone. *)
Lemma ilike_uniform pat :
  (∀ s, ∃ b, ilike s pat = Return b) ∨ (∃ x, ∀ s, ilike s pat = Raise x).
Proof.
  unfold ilike, like.
  destruct (_ <? _); [right|left]; by eexists.
Qed.

(** What a [WHERE] keeps when it does not fail. *)
Lemma sql_where_Return cond rows kept :
  sql_where cond rows = Return kept →
  kept = filter (fun r => Is_true (holds (cond r))) rows.
Proof.
  revert kept. induction rows as [|r rows IH]; intros kept; cbn.
  - by intros [= <-].
  - destruct (cond r) as [b|x] eqn:Hr; [|done].
    destruct (sql_where cond rows) as [kept'|x]; [|done].
    intros [= <-]. rewrite (IH kept' eq_refl).
    destruct b; cbn; destruct (decide _) as [H|H]; done.
Qed.

Lemma sql_where_total cond rows :
  (∀ r, ∃ b, cond r = Return b) → ∃ kept, sql_where cond rows = Return kept.
Proof.
  intros Hc. induction rows as [|r rows [kept IH]]; [by eexists|].
  cbn. destruct (Hc r) as [b ->]. rewrite IH. by eexists.
Qed.

Lemma sql_where_error cond rows x :
  (∀ r, cond r = Raise x) →
  sql_where cond rows = Return [] ∨ sql_where cond rows = Raise x.
Proof.
  intros Hc. destruct rows as [|r rows]; [by left|].
  right. cbn. by rewrite Hc.
Qed.

Lemma like_percent pat s :
  patternCompare (PERCENT :: pat) s
  = patternCompare pat s
    || match s with
       | [] => false
       | _ :: s' => patternCompare (PERCENT :: pat) s'
       end.
Proof. by destruct s. Qed.

Lemma like_percent_skip pat s1 s2 :
  patternCompare (PERCENT :: pat) s2 = true →
  patternCompare (PERCENT :: pat) (s1 ++ s2) = true.
Proof.
  intros H. induction s1 as [|c s1 IH]; [done|].
  rewrite like_percent. cbn [app]. rewrite IH. apply orb_true_r.
Qed.

Lemma like_percent_inv pat s :
  patternCompare (PERCENT :: pat) s = true →
  ∃ s1 s2, s = s1 ++ s2 ∧ patternCompare pat s2 = true.
Proof.
  induction s as [|c s IH]; rewrite like_percent; intros H.
  - rewrite orb_false_r in H. by exists [], [].
  - apply orb_prop in H as [H|H]; [by exists [], (c :: s)|].
    destruct (IH H) as (s1 & s2 & -> & H2). by exists (c :: s1), s2.
Qed.

Lemma like_any s : patternCompare [PERCENT] s = true.
Proof.
  induction s as [|c s IH]; [done|].
  rewrite like_percent, IH. apply orb_true_r.
Qed.

Lemma like_cons p pat c s :
  p ≠ PERCENT →
  patternCompare (p :: pat) (c :: s)
  = ((p =? UNDERSCORE)%N || (ascii_lower p =? ascii_lower c)%N)
    && patternCompare pat s.
Proof. intros Hp. cbn [patternCompare]. by destruct (N.eqb_spec p PERCENT). Qed.

(** A text matches itself, whatever follows and whatever it holds. *)
Lemma like_literal q : ∀ post,
  patternCompare (q ++ [PERCENT]) (q ++ post) = true.
Proof.
  induction q as [|c q IH]; intros post; [apply like_any|].
  cbn [app]. destruct (N.eqb_spec c PERCENT) as [->|Hc].
  - rewrite like_percent. cbn [app].
    rewrite (like_percent (q ++ [PERCENT]) (q ++ post)), IH. cbn.
    apply orb_true_r.
  - rewrite like_cons by done. rewrite N.eqb_refl, orb_true_r. apply IH.
Qed.

Lemma like_literal_inv q : ∀ s,
  wildcard_free q →
  patternCompare (q ++ [PERCENT]) s = true →
  ∃ t post, s = t ++ post ∧ map ascii_lower t = map ascii_lower q.
Proof.
  induction q as [|c q IH]; intros s Hq H.
  - by exists [], s.
  - apply Forall_cons in Hq as [[Hp Hu] Hq].
    destruct s as [|d s]; cbn [app] in H.
    { cbn in H. by destruct (N.eqb_spec c PERCENT). }
    rewrite like_cons in H by done.
    apply andb_prop in H as [Hc H].
    destruct (N.eqb_spec c UNDERSCORE); [done|]. cbn in Hc.
    apply N.eqb_eq in Hc.
    destruct (IH s Hq H) as (t & post & -> & Ht).
    exists (d :: t), post. cbn. by rewrite Ht, Hc.
Qed.

Lemma ascii_lower_idemp c : ascii_lower (ascii_lower c) = ascii_lower c.
Proof.
  unfold ascii_lower.
  destruct ((65 <=? c) && (c <=? 90))%N eqn:H; [|by rewrite H].
  apply andb_prop in H as [H1 H2]. apply N.leb_le in H1, H2.
  replace ((65 <=? c + 32) && (c + 32 <=? 90))%N with false; [done|].
  symmetry. apply andb_false_intro2, N.leb_gt. lia.
Qed.

Lemma map_ascii_lower_idemp s :
  map ascii_lower (map ascii_lower s) = map ascii_lower s.
Proof.
  rewrite map_map. apply map_ext. intros c. apply ascii_lower_idemp.
Qed.

Lemma ascii_lower_wildcard c :
  (ascii_lower c = PERCENT ↔ c = PERCENT)
  ∧ (ascii_lower c = UNDERSCORE ↔ c = UNDERSCORE).
Proof.
  unfold ascii_lower, PERCENT, UNDERSCORE.
  destruct ((65 <=? c) && (c <=? 90))%N eqn:H; [|done].
  apply andb_prop in H as [H1 H2]. apply N.leb_le in H1, H2. lia.
Qed.

Lemma wildcard_free_lower q :
  wildcard_free q → wildcard_free (map ascii_lower q).
Proof.
  unfold wildcard_free. induction 1 as [|c q [Hp Hu] Hq IH]; cbn; [done|].
  constructor; [|done].
  destruct (ascii_lower_wildcard c) as [H1 H2]. split; intros H; tauto.
Qed.

(** [ilike] with a searchable text between two [%]: a query matches when
    it contains the text before its first NUL; for a text without [%] and
    [_], only then. *)
Lemma ilike_searchable s q :
  searchable q →
  ilike s ([PERCENT] ++ q ++ [PERCENT])
  = Return (patternCompare (sql_lower ([PERCENT] ++ q ++ [PERCENT]))
              (sql_lower (c_string s))).
Proof.
  intros (_ & Hlen & Hn). apply ilike_c_string.
  - by rewrite utf8_length_pattern.
  - by apply nul_free_pattern.
Qed.

Lemma ilike_contains s q :
  searchable q →
  contains_nocase (c_string s) q →
  ilike s ([PERCENT] ++ q ++ [PERCENT]) = Return true.
Proof.
  intros Hq (pre & t & post & Hs & Ht).
  rewrite ilike_searchable by done. f_equal.
  rewrite Hs. unfold sql_lower.
  rewrite !map_app, Ht. cbn [map app].
  change (ascii_lower PERCENT) with PERCENT.
  apply like_percent_skip. rewrite like_percent.
  by rewrite like_literal.
Qed.

Lemma ilike_contains_inv s q :
  searchable q →
  wildcard_free q →
  ilike s ([PERCENT] ++ q ++ [PERCENT]) = Return true →
  contains_nocase (c_string s) q.
Proof.
  intros Hn Hq.
  rewrite ilike_searchable by done.
  unfold sql_lower. rewrite !map_app. cbn [map app].
  change (ascii_lower PERCENT) with PERCENT.
  intros [= H]. apply like_percent_inv in H as (s1 & s2 & Hs & H).
  apply like_literal_inv in H as (t & post & -> & Ht);
    [|by apply wildcard_free_lower].
  apply map_eq_app in Hs as (pre & rest & -> & <- & Hrest).
  apply map_eq_app in Hrest as (t' & post' & -> & <- & <-).
  exists pre, t', post'. split; [done|].
  by rewrite !map_ascii_lower_idemp in Ht.
Qed.

(** A query without NUL is read whole. *)
Lemma contains_nocase_c_string s q :
  nul_free s → contains_nocase (c_string s) q ↔ contains_nocase s q.
Proof. intros Hs. by rewrite c_string_nul_free. Qed.

Lemma holds_true a : Is_true (holds a) ↔ a = Return true.
Proof. destruct a as [[]|]; cbn; split; try done. Qed.

(** *** [search_reports] *)

(** What [search_reports] comes to: the empty list when the text cannot be
    bound, when the statement fails or when the pattern is refused; the
    rows the condition holds of, newest first, otherwise. *)
Lemma search_reports_outcome e f q s :
  let cond r := ilike (query r) ([PERCENT] ++ q ++ [PERCENT]) in
  ∃ rows,
    search_reports e f q s = (Return rows, s)
    ∧ (rows = []
       ∨ encodable q ∧ select_error f s = None
         ∧ (∀ r, ∃ b, cond r = Return b))
    ∧ (encodable q → select_error f s = None →
       (∀ r, ∃ b, cond r = Return b) →
       rows = order_by_created_desc
                (filter (fun r => Is_true (holds (cond r))) (visible e s))).
Proof.
  cbn zeta. unfold search_reports, try_except, bind, lift.
  destruct (bind_text_spec ([PERCENT] ++ q ++ [PERCENT]))
    as [[Henc ->]|[Henc [x ->]]].
  2:{ rewrite encodable_pattern in Henc. cbn. exists [].
      split_and!; [done|by left|done]. }
  rewrite encodable_pattern in Henc.
  unfold select_where.
  destruct (select_error f s) as [x|] eqn:Herr.
  { cbn. exists []. split_and!; [done|by left|done]. }
  destruct (ilike_uniform ([PERCENT] ++ q ++ [PERCENT])) as [Hc|[x Hc]].
  - destruct (sql_where_total
                (fun r => ilike (query r) ([PERCENT] ++ q ++ [PERCENT]))
                (visible e s)) as [kept Hk]; [done|].
    rewrite Hk. pose proof (sql_where_Return _ _ _ Hk) as ->.
    eexists. split_and!; [done|by right|done].
  - destruct (sql_where_error
                (fun r => ilike (query r) ([PERCENT] ++ q ++ [PERCENT]))
                (visible e s) x) as [Hk|Hk]; [done|rewrite Hk..].
    + exists (order_by_created_desc []).
      split_and!; [done|by left|].
      intros _ _ Hall. destruct (Hall (new_report [] [] [])) as [b Hb].
      rewrite Hc in Hb. done.
    + cbn. exists []. split_and!; [done|by left|].
      intros _ _ Hall. destruct (Hall (new_report [] [] [])) as [b Hb].
      rewrite Hc in Hb. done.
Qed.

(** [search_reports] never raises and leaves the session as it was.  Its
    rows are stored rows, newest first.  When the statement does not fail
    and the search text is searchable (no surrogate, no NUL, at most
    49,998 bytes), every stored report whose query contains the text,
    ASCII case aside, is among them; the engine reads a stored query up to
    its first NUL, so the text must occur in that part (the whole query
    when it holds no NUL).  When the statement fails, when the text holds
    a surrogate or when it is longer, the answer is the empty list. *)
Theorem search_reports_finds e f q s :
  ∃ rows,
    search_reports e f q s = (Return rows, s)
    ∧ StronglySorted not_older rows
    ∧ rows ⊆+ visible e s
    ∧ (select_error f s = None → searchable q →
       ∀ r, r ∈ visible e s →
         contains_nocase (c_string (query r)) q → r ∈ rows)
    ∧ (select_error f s = None → searchable q →
       ∀ r, r ∈ visible e s → nul_free (query r) →
         contains_nocase (query r) q → r ∈ rows)
    ∧ (select_error f s ≠ None → rows = [])
    ∧ (¬ encodable q → rows = [])
    ∧ (SQLITE_MAX_LIKE_PATTERN_LENGTH < utf8_length q + 2 → rows = []).
Proof.
  destruct (search_reports_outcome e f q s) as (rows & Hrun & Hcase & Hrows).
  cbn zeta in Hcase, Hrows.
  assert (Hfind : select_error f s = None → searchable q →
            ∀ r, r ∈ visible e s →
              contains_nocase (c_string (query r)) q → r ∈ rows).
  { intros Herr Hq r Hr Hc. rewrite Hrows; [|apply Hq|done|].
    - unfold order_by_created_desc. rewrite merge_sort_Permutation.
      apply list_elem_of_filter. split; [|done].
      apply holds_true. by apply ilike_contains.
    - intros r'. rewrite ilike_searchable by done. by eexists. }
  exists rows. split; [done|].
  destruct Hcase as [->|(Henc & Herr & Hall)].
  { split_and!; [constructor|apply submseteq_nil_l|done|..|done|done|done].
    intros Herr Hq r Hr Hn Hc. apply Hfind; [done..|].
    by apply contains_nocase_c_string. }
  specialize (Hrows Henc Herr Hall). subst rows.
  split_and!.
  - apply StronglySorted_merge_sort; apply _.
  - unfold order_by_created_desc. rewrite merge_sort_Permutation.
    apply sublist_submseteq, sublist_filter.
  - done.
  - intros _ Hq r Hr Hn Hc. apply Hfind; [done..|].
    by apply contains_nocase_c_string.
  - congruence.
  - done.
  - intros Hlong. exfalso.
    destruct (Hall (new_report [] [] [])) as [b Hb]. revert Hb.
    unfold ilike, like. rewrite utf8_length_lower, utf8_length_pattern.
    by destruct (Z.ltb_spec SQLITE_MAX_LIKE_PATTERN_LENGTH
                   (utf8_length q + 2)); [|lia].
Qed.

Lemma search_reports_finds_witness :
  ∃ rows,
    search_reports reliable no_faults (ustr "OL") one_report
      = (Return rows, one_report)
    ∧ stamp 1 1690000000
        (new_report (ustr "old") (ustr "text") [ustr "http://a.org/"])
      ∈ rows.
Proof.
  destruct (search_reports_finds reliable no_faults (ustr "OL") one_report)
    as (rows & Hrun & _ & _ & _ & Hfind & _).
  exists rows. split; [done|].
  apply Hfind.
  - reflexivity.
  - split_and!; [repeat constructor|by vm_compute
                |repeat constructor; discriminate].
  - by left.
  - repeat constructor; discriminate.
  - by exists [], (ustr "ol"), (ustr "d").
Defined.

(** For a searchable text without [%] and [_], [search_reports] returns
    exactly the stored reports whose query contains the text, ASCII case
    aside, before its first NUL (anywhere, when the query holds no
    NUL). *)
Theorem search_reports_exact e f q s :
  wildcard_free q →
  searchable q →
  select_error f s = None →
  ∃ rows,
    search_reports e f q s = (Return rows, s)
    ∧ rows ≡ₚ filter (fun r => Is_true
                 (holds (ilike (query r) ([PERCENT] ++ q ++ [PERCENT]))))
               (visible e s)
    ∧ StronglySorted not_older rows
    ∧ (∀ r, r ∈ rows ↔
         r ∈ visible e s ∧ contains_nocase (c_string (query r)) q)
    ∧ (∀ r, nul_free (query r) →
         r ∈ rows ↔ r ∈ visible e s ∧ contains_nocase (query r) q).
Proof.
  intros Hq Hn Herr.
  destruct (search_reports_outcome e f q s) as (rows & Hrun & _ & Hrows).
  cbn zeta in Hrows.
  assert (Hall : ∀ r, ∃ b,
            ilike (query r) ([PERCENT] ++ q ++ [PERCENT]) = Return b).
  { intros r. rewrite ilike_searchable by done. by eexists. }
  specialize (Hrows (proj1 Hn) Herr Hall). subst rows.
  set (kept := filter _ (visible e s)) in *.
  assert (Hiff : ∀ r, r ∈ order_by_created_desc kept ↔
            r ∈ visible e s ∧ contains_nocase (c_string (query r)) q).
  { intros r. unfold order_by_created_desc.
    rewrite merge_sort_Permutation. subst kept.
    rewrite list_elem_of_filter, holds_true.
    split.
    - intros [Hm Hr]. split; [done|]. by apply ilike_contains_inv.
    - intros [Hr Hc]. split; [|done]. by apply ilike_contains. }
  eexists. split_and!; [done| | |done|].
  - apply merge_sort_Permutation.
  - apply StronglySorted_merge_sort; apply _.
  - intros r Hr. by rewrite Hiff, contains_nocase_c_string.
Qed.

Lemma search_reports_exact_witness :
  ∃ rows,
    search_reports reliable no_faults (ustr "OL") one_report
      = (Return rows, one_report)
    ∧ rows ≡ₚ filter (fun r => Is_true
                 (holds (ilike (query r) ([PERCENT] ++ ustr "OL" ++ [PERCENT]))))
               (visible reliable one_report)
    ∧ StronglySorted not_older rows
    ∧ (∀ r, r ∈ rows ↔
         r ∈ visible reliable one_report
         ∧ contains_nocase (c_string (query r)) (ustr "OL"))
    ∧ (∀ r, nul_free (query r) →
         r ∈ rows ↔
         r ∈ visible reliable one_report
         ∧ contains_nocase (query r) (ustr "OL")).
Proof.
  apply (search_reports_exact reliable no_faults (ustr "OL") one_report).
  - repeat constructor; discriminate.
  - split_and!; [repeat constructor|by vm_compute
                |repeat constructor; discriminate].
  - reflexivity.
Defined.

(** *** [delete_report] *)

Lemma next_id_fresh rows r : r ∈ rows → id r ≠ Some (next_id rows).
Proof.
  intros Hr.
  assert (H : get_default (id r) 0
              <= foldr (fun r m => Z.max (get_default (id r) 0) m) 0 rows).
  { induction Hr as [r rows|r x rows Hr IH]; cbn [foldr].
    - apply Z.le_max_l.
    - etrans; [apply IH|apply Z.le_max_r]. }
  intros Hid. rewrite Hid in H. unfold next_id in H. cbn in H. lia.
Qed.

(** [delete_report] never raises.  When it returns [True] a row with the
    given id existed, the table is what was visible without the rows of
    that id, and nothing is pending.  When it returns [False] the table is
    as it was.  When no row has the id and the lookup does not fail, it
    returns [False] and the session is untouched. *)
Theorem delete_report_spec e f k s :
  ∃ b s',
    delete_report e f k s = (Return b, s')
    ∧ (b = true →
       (∃ r, r ∈ visible e s ∧ id r = Some k)
       ∧ table s' = filter (fun x => id x ≠ Some k) (visible e s)
       ∧ pending s' = [])
    ∧ (b = false → table s' = table s ∧ (s' = s ∨ pending s' = []))
    ∧ (select_error f s = None →
       (∀ r, r ∈ visible e s → id r ≠ Some k) →
       b = false ∧ s' = s).
Proof.
  unfold delete_report, try_except, bind, get_by_id, delete_and_commit,
    rollback, modify, ret.
  destruct (select_error f s) as [x|] eqn:Hsel.
  { eexists false, _. cbn. split_and!; [done|done|auto|done]. }
  destruct (head (filter (fun r => id r = Some k) (visible e s)))
    as [r|] eqn:Hget.
  2:{ exists false, s. split_and!; [done|done|auto|done]. }
  apply head_Some_elem_of, list_elem_of_filter in Hget as [Hid Hr].
  destruct (delete_error f s r) as [x|].
  { eexists false, _. cbn. split_and!; [done|done|auto|].
    intros _ Hnone. by destruct (Hnone r Hr). }
  destruct (commit_error e s) as [x|].
  { eexists false, _. cbn. split_and!; [done|done|auto|].
    intros _ Hnone. by destruct (Hnone r Hr). }
  eexists true, _. cbn. rewrite Hid. split_and!; [done| |done|].
  - intros _. split_and!; [by exists r|done|done].
  - intros _ Hnone. by destruct (Hnone r Hr).
Qed.

(** On a healthy engine, with nothing pending, [save_report] appends one
    row. *)
Lemma save_report_healthy e f query content sources s :
  healthy e f →
  pending s = [] →
  save_report e query content sources s
  = (Return true,
     {| table := table s
                 ++ [stamp (next_id (table s))
                       (utcnow e (added s (new_report query content sources)))
                       (new_report query content sources)];
        pending := [] |}).
Proof.
  intros Hok Hpend. destruct s as [rows pend]. cbn in Hpend. subst pend.
  set (report := new_report query content sources).
  set (s := {| table := rows; pending := [] |}).
  unfold save_report, try_except, bind, add, commit, rollback, modify, ret.
  fold (new_report query content sources). fold report.
  destruct (Hok s report) as (-> & _).
  fold (added s report).
  destruct (Hok (added s report) report) as (_ & -> & _). done.
Qed.

Lemma filter_none {A} (P : A → Prop) `{∀ x, Decision (P x)} (l : list A) :
  (∀ x, x ∈ l → ¬ P x) → filter P l = [].
Proof.
  intros HP. induction l as [|x l IH]; [done|].
  rewrite filter_cons_False by (apply HP; left).
  apply IH. intros y Hy. apply HP. by right.
Qed.

Lemma filter_all {A} (P : A → Prop) `{∀ x, Decision (P x)} (l : list A) :
  (∀ x, x ∈ l → P x) → filter P l = l.
Proof.
  intros HP. induction l as [|x l IH]; [done|].
  rewrite filter_cons_True by (apply HP; left).
  f_equal. apply IH. intros y Hy. apply HP. by right.
Qed.

(** Saving a report and deleting the id it was given brings the session
    back to where it was, on an engine where no statement fails and with
    nothing pending. *)
Theorem save_then_delete e f query content sources s :
  healthy e f →
  pending s = [] →
  ∃ s1,
    save_report e query content sources s = (Return true, s1)
    ∧ delete_report e f (next_id (table s)) s1 = (Return true, s).
Proof.
  intros Hok Hpend. eexists. split; [by eapply save_report_healthy|].
  destruct s as [rows pend]. cbn in Hpend. subst pend. cbn [table].
  set (new := stamp _ _ _).
  set (s1 := {| table := rows ++ [new]; pending := [] |}).
  destruct (Hok s1 new) as (_ & Hcommit & Hselect & Hdelete).
  unfold delete_report, try_except, bind, get_by_id.
  rewrite Hselect. change (visible e s1) with (rows ++ [new]).
  rewrite filter_app, (filter_none (fun r => id r = Some (next_id rows))).
  2:{ intros x Hx. by apply next_id_fresh. }
  rewrite filter_cons_True by done. cbn [app head filter].
  unfold delete_and_commit. rewrite Hdelete, Hcommit. cbn.
  change (visible e s1) with (rows ++ [new]).
  rewrite filter_app, filter_all by (intros x Hx; by apply next_id_fresh).
  rewrite filter_cons_False by (intros H; by apply H).
  by rewrite filter_nil, app_nil_r.
Qed.

Lemma save_then_delete_witness :
  ∃ s1,
    save_report reliable (ustr "q") (ustr "report") [ustr "http://b.org/"]
      one_report = (Return true, s1)
    ∧ delete_report reliable no_faults 2 s1 = (Return true, one_report).
Proof.
  apply (save_then_delete reliable no_faults (ustr "q") (ustr "report")
           [ustr "http://b.org/"] one_report); [|reflexivity].
  intros s r. repeat split; reflexivity.
Defined.

(** A report just saved is the first row [get_reports] lists, for any
    limit of at least one, provided the clock has passed the date of every
    stored report (on an engine where no statement fails, with nothing
    pending). *)
Theorem saved_report_listed_first e f query content sources limit s :
  healthy e f →
  pending s = [] →
  1 <= limit →
  (∀ r t, r ∈ table s → created_at r = Some t →
     t < utcnow e (added s (new_report query content sources))) →
  ∃ s1 rows,
    save_report e query content sources s = (Return true, s1)
    ∧ get_reports e f limit s1 = (Return rows, s1)
    ∧ head rows
      = Some (stamp (next_id (table s))
                (utcnow e (added s (new_report query content sources)))
                (new_report query content sources)).
Proof.
  intros Hok Hpend Hlimit Hclock.
  rewrite (save_report_healthy e f) by done.
  set (now := utcnow e _). fold now in Hclock.
  set (new := stamp _ now _).
  set (s1 := {| table := table s ++ [new]; pending := [] |}).
  destruct (Hok s1 new) as (_ & _ & Hselect & _).
  exists s1. unfold get_reports, try_except, select. rewrite Hselect.
  rewrite (filter_all _ (visible e s1)) by done.
  change (visible e s1) with (table s ++ [new]).
  set (sorted := order_by_created_desc (table s ++ [new])).
  assert (Hperm : sorted ≡ₚ table s ++ [new]) by apply merge_sort_Permutation.
  assert (Hs : StronglySorted not_older sorted)
    by (apply StronglySorted_merge_sort; apply _).
  eexists. split; [done|]. split; [done|].
  unfold sql_limit. destruct (Z.ltb_spec limit 0); [lia|].
  destruct (Z.to_nat limit) as [|n] eqn:Hn; [lia|].
  assert (Hnew : new ∈ sorted).
  { rewrite Hperm. apply elem_of_app. right. by left. }
  destruct sorted as [|h rest]; [by apply elem_of_nil in Hnew|].
  cbn [take head]. f_equal.
  assert (Hh : h ∈ table s ++ [new]) by (rewrite <- Hperm; by left).
  apply elem_of_app in Hh as [Hh|Hh]; [|by apply list_elem_of_singleton in Hh].
  exfalso.
  apply elem_of_cons in Hnew as [Heq|Hnew].
  { subst h. specialize (Hclock new now Hh eq_refl). lia. }
  apply StronglySorted_inv in Hs as [_ Hs].
  rewrite Forall_forall in Hs. specialize (Hs new Hnew).
  apply not_older_spec in Hs. cbn [created_at new stamp] in Hs.
  destruct (created_at h) as [t|] eqn:Ht; [|done].
  specialize (Hclock h t Hh Ht). lia.
Qed.

Lemma saved_report_listed_first_witness :
  ∃ s1 rows,
    save_report reliable (ustr "q") (ustr "report") [ustr "http://b.org/"]
      one_report = (Return true, s1)
    ∧ get_reports reliable no_faults 10 s1 = (Return rows, s1)
    ∧ head rows
      = Some (stamp 2 1700000000
                (new_report (ustr "q") (ustr "report") [ustr "http://b.org/"])).
Proof.
  apply (saved_report_listed_first reliable no_faults (ustr "q")
           (ustr "report") [ustr "http://b.org/"] 10 one_report).
  - intros s r. repeat split; reflexivity.
  - reflexivity.
  - lia.
  - intros r t Hr Ht. apply list_elem_of_singleton in Hr. subst r.
    injection Ht as <-. reflexivity.
Defined.


End DatabaseQueriesFacts.

(** ** The report generator *)

Section AiProcessorFacts.

Import PyFormat AiProcessor AiProcessorExamples.

Lemma join_lookup sep (ws : list pystr) i w :
  ws !! i = Some w → ∃ pre post, join sep ws = pre ++ w ++ post.
Proof.
  revert i. induction ws as [|v ws IH]; intros i Hi; [done|].
  destruct i as [|i].
  - cbn in Hi. injection Hi as ->. destruct ws as [|u ws].
    + exists [], []. cbn. by rewrite app_nil_r.
    + exists [], (sep ++ join sep (u :: ws)). by rewrite join_cons.
  - cbn in Hi. destruct (IH i Hi) as (pre & post & Hj).
    destruct ws as [|u ws]; [done|].
    exists (v ++ sep ++ pre), post.
    rewrite join_cons, Hj. by rewrite <- !app_assoc.
Qed.

(** The prompt starts with the topic and the template, and holds every
    content verbatim, content [i] right after the header
    [Source i+1:] and a newline. *)
Theorem prepare_prompt_embeds query contents prompt_template :
  let prompt := _prepare_prompt query contents prompt_template in
  (∃ post, prompt = NL ++ ustr "Research Topic: " ++ query ++ NL ++ NL
                    ++ prompt_template ++ NL ++ NL ++ post)
  ∧ (∀ i content, contents !! i = Some content →
       ∃ pre post,
         prompt = pre ++ ustr "Source " ++ str_nat (i + 1) ++ ustr ":" ++ NL
                  ++ content ++ post).
Proof.
  cbn zeta. unfold _prepare_prompt. split.
  { exists (ustr "Sources:" ++ NL
            ++ join (NL ++ NL) (imap source_block contents) ++ NL ++ NL
            ++ INSTRUCTIONS).
    reflexivity. }
  intros i content Hi.
  assert (Hb : imap source_block contents !! i
               = Some (source_block i content)).
  { apply list_lookup_imap_Some. by exists content. }
  destruct (join_lookup (NL ++ NL) _ _ _ Hb) as (pre & post & ->).
  exists (NL ++ ustr "Research Topic: " ++ query ++ NL ++ NL
          ++ prompt_template ++ NL ++ NL ++ ustr "Sources:" ++ NL ++ pre),
         (post ++ NL ++ NL ++ INSTRUCTIONS).
  unfold source_block.
  generalize (ustr "Research Topic: ") (ustr "Sources:") (ustr "Source ")
    (ustr ":") (str_nat (i + 1)) INSTRUCTIONS NL.
  intros. by rewrite <- !app_assoc.
Qed.

(** [generate_report] never raises, calls the model exactly once, with
    the prepared prompt, and never returns the empty string: it returns
    the text of the model when the model answered a non-empty text, and
    one of its two error messages otherwise. *)
Theorem generate_report_total self query contents prompt_template sent :
  let prompt := _prepare_prompt query contents prompt_template in
  ∃ report,
    generate_report self query contents prompt_template sent
    = (Return report, sent ++ [prompt])
    ∧ report ≠ EMPTY
    ∧ (report = UNEXPECTED ∨ report = NO_REPORT
       ∨ ∃ r, generate_content self sent prompt = Return r
              ∧ text r = Return report)
    ∧ (∀ r t, generate_content self sent prompt = Return r →
         text r = Return t → t ≠ EMPTY → report = t).
Proof.
  cbn zeta. unfold generate_report, try_except, bind, send, lift, ret.
  assert (Hu : UNEXPECTED ≠ EMPTY) by (vm_compute; discriminate).
  assert (Hn : NO_REPORT ≠ EMPTY) by (vm_compute; discriminate).
  destruct (generate_content self sent _) as [r|x] eqn:Hgen.
  2:{ exists UNEXPECTED. split_and!; [done|done|by left|done]. }
  destruct (text r) as [t|x] eqn:Ht.
  2:{ exists UNEXPECTED. split_and!; [done|done|by left|].
      intros r' t' [= <-]. by rewrite Ht. }
  destruct t as [|c t].
  { exists NO_REPORT. split_and!; [done|done|by right; left|].
    intros r' t' [= <-]. rewrite Ht. by intros [= <-]. }
  cbn [falsy].
  exists (c :: t). split_and!; [done|done|right; right; by exists r|].
  intros r' t' [= <-]. rewrite Ht. by intros [= <-].
Qed.

End AiProcessorFacts.

(** ** The exporter *)

Section ExporterFacts.

Import PyFormat Exporter ExporterExamples ExporterSpec.

Lemma uint_digits_digits u : Forall (fun c => is_digit c = true) (uint_digits u).
Proof. induction u; cbn; constructor; done. Qed.

Lemma zfill_digits width n :
  Forall (fun c => is_digit c = true) (zfill width (str_nat n)).
Proof.
  unfold zfill. apply Forall_app. split.
  - apply Forall_forall. intros c Hc.
    by apply list_elem_of_In, repeat_spec in Hc as ->.
  - apply uint_digits_digits.
Qed.

Lemma strftime_chars d :
  Forall (fun c => is_digit c = true ∨ c = UNDERSCORE) (strftime d).
Proof.
  assert (Hz : ∀ width n,
    Forall (fun c => is_digit c = true ∨ c = UNDERSCORE)
      (zfill width (str_nat n))).
  { intros. eapply Forall_impl; [apply zfill_digits|]. by left. }
  unfold strftime. rewrite !Forall_app.
  split_and!; try apply Hz. constructor; [by right|constructor].
Qed.

Lemma safe_query_chars sys query :
  Forall (fun c => isalnum sys c = true ∨ c = UNDERSCORE)
    (slice_to 30
       (map (fun c => if isalnum sys c then c else UNDERSCORE) query)).
Proof.
  unfold slice_to. cbn [Z.leb Z.compare]. apply Forall_take.
  induction query as [|c query IH]; cbn [map]; constructor; [|done].
  destruct (isalnum sys c) eqn:Hc; auto.
Qed.

Lemma get_filename_shape_aux sys query format fs :
  ∃ stem stamp,
    Forall (fun c => isalnum sys c = true ∨ c = UNDERSCORE) stem
    ∧ Forall (fun c => is_digit c = true ∨ c = UNDERSCORE) stamp
    ∧ _get_filename sys query format fs
      = (Return (stem ++ [UNDERSCORE] ++ stamp ++ [DOT] ++ lower format), fs).
Proof.
  unfold _get_filename. eexists _, _.
  split_and!; [apply safe_query_chars|apply strftime_chars|done].
Qed.

(** The file name is [stem_stamp.format]: the stem has at most 30
    characters, no more than the query, each alphanumeric or an
    underscore; the stamp holds digits and underscores only. *)
Theorem get_filename_shape sys query format fs :
  ∃ stem stamp,
    _get_filename sys query format fs
    = (Return (stem ++ [UNDERSCORE] ++ stamp ++ [DOT] ++ lower format), fs)
    ∧ (length stem ≤ 30)%nat
    ∧ (length stem ≤ length query)%nat
    ∧ Forall (fun c => isalnum sys c = true ∨ c = UNDERSCORE) stem
    ∧ Forall (fun c => is_digit c = true ∨ c = UNDERSCORE) stamp.
Proof.
  unfold _get_filename. eexists _, _. split; [done|].
  split_and!.
  - unfold slice_to. cbn [Z.leb Z.compare]. rewrite length_take. lia.
  - unfold slice_to. cbn [Z.leb Z.compare].
    rewrite length_take, length_map. lia.
  - apply safe_query_chars.
  - apply strftime_chars.
Qed.

Lemma filename_confined sys query format fs :
  isalnum sys SLASH = false →
  ∃ stem,
    _get_filename sys query format fs
    = (Return (stem ++ [DOT] ++ lower format), fs)
    ∧ (SLASH ∉ stem)
    ∧ path_join EXPORT_DIR (stem ++ [DOT] ++ lower format)
      = ustr "exports/" ++ stem ++ [DOT] ++ lower format.
Proof.
  intros Hslash.
  destruct (get_filename_shape_aux sys query format fs)
    as (stem & stamp & Hstem & Hstamp & Hrun).
  exists (stem ++ [UNDERSCORE] ++ stamp).
  assert (Hno : SLASH ∉ stem ++ [UNDERSCORE] ++ stamp).
  { rewrite !elem_of_app. intros [H|[H|H]].
    - rewrite Forall_forall in Hstem. destruct (Hstem _ H) as [Hc|Hc].
      + congruence.
      + discriminate.
    - by apply list_elem_of_singleton in H.
    - rewrite Forall_forall in Hstamp. destruct (Hstamp _ H) as [Hc|Hc];
        discriminate. }
  split_and!; [|done|].
  { rewrite Hrun. by rewrite <- !app_assoc. }
  destruct (stem ++ [UNDERSCORE] ++ stamp) as [|c rest] eqn:Hname.
  { destruct stem; discriminate. }
  cbn [app path_join]. destruct (N.eqb_spec c SLASH) as [->|_]; [|done].
  exfalso. apply Hno. by left.
Qed.

Ltac export_cases sys :=
  repeat match goal with
  | |- context [open_error sys ?fs ?p] =>
      destruct (open_error sys fs p); [eexists _, _; by split|]
  | |- context [write_error sys ?fs ?p ?t] =>
      destruct (write_error sys fs p t); [eexists _, _; by split|]
  end.

(** Whatever the query, the three exports never raise, and a path they
    return names a file directly inside [exports/], with no further [/]
    in it and with the extension of the format (given that [/] is not
    alphanumeric). *)
Theorem export_paths_confined sys query content fs :
  isalnum sys SLASH = false →
  confined (ustr "txt") (export_txt sys query content fs)
  ∧ confined (ustr "pdf") (export_pdf sys query content fs)
  ∧ confined (ustr "docx") (export_docx sys query content fs).
Proof.
  intros Hslash.
  assert (Hname : ∀ format,
    ∃ stem,
      _get_filename sys query format fs
      = (Return (stem ++ [DOT] ++ lower format), fs)
      ∧ (SLASH ∉ stem)
      ∧ path_join EXPORT_DIR (stem ++ [DOT] ++ lower format)
        = ustr "exports/" ++ stem ++ [DOT] ++ lower format)
    by (intros; by apply filename_confined).
  unfold confined, export_txt, export_pdf, export_docx, output, try_except,
    bind, open_w, write, lift, ret.
  split_and!.
  - destruct (Hname (ustr "txt")) as (stem & -> & Hno & ->).
    export_cases sys.
    eexists _, _. split; [done|]. intros path [= <-]. exists stem.
    split; [reflexivity|done].
  - destruct (fpdf sys _ content) as [pdf|x]; [|eexists _, _; by split].
    destruct (Hname (ustr "pdf")) as (stem & -> & Hno & ->).
    export_cases sys.
    eexists _, _. split; [done|]. intros path [= <-]. exists stem.
    split; [reflexivity|done].
  - destruct (docx sys _ content) as [doc|x]; [|eexists _, _; by split].
    destruct (Hname (ustr "docx")) as (stem & -> & Hno & ->).
    export_cases sys.
    eexists _, _. split; [done|]. intros path [= <-]. exists stem.
    split; [reflexivity|done].
Qed.

Lemma export_paths_confined_witness :
  confined (ustr "txt")
    (export_txt steady (ustr "../../etc/passwd") (ustr "body") ∅)
  ∧ confined (ustr "pdf")
      (export_pdf steady (ustr "../../etc/passwd") (ustr "body") ∅)
  ∧ confined (ustr "docx")
      (export_docx steady (ustr "../../etc/passwd") (ustr "body") ∅).
Proof.
  apply (export_paths_confined steady (ustr "../../etc/passwd")
           (ustr "body") ∅).
  reflexivity.
Defined.

(** [export_txt] touches no file but its target.  When it returns a path
    it is the target, and the file there holds the two header lines and
    then the content; otherwise it returns [None]. *)
Theorem export_txt_writes sys query content fs :
  ∃ name r fs',
    _get_filename sys query (ustr "txt") fs = (Return name, fs)
    ∧ export_txt sys query content fs = (Return r, fs')
    ∧ (∀ p, p ≠ path_join EXPORT_DIR name → fs' !! p = fs !! p)
    ∧ (r = None
       ∨ r = Some (path_join EXPORT_DIR name)
         ∧ fs' !! path_join EXPORT_DIR name
           = Some (txt_file query content)).
Proof.
  unfold export_txt, try_except, bind.
  destruct (_get_filename sys query (ustr "txt") fs) as [r0 fs0] eqn:Hname.
  assert (Hn : ∃ name, r0 = Return name ∧ fs0 = fs).
  { unfold _get_filename in Hname. injection Hname as <- <-. by eexists. }
  destruct Hn as (name & -> & ->).
  set (target := path_join EXPORT_DIR name).
  exists name. unfold open_w, write, ret.
  destruct (open_error sys fs target).
  { eexists None, fs. split_and!; [done|done|done|by left]. }
  match goal with |- context [write_error sys ?f ?p ?t] =>
    destruct (write_error sys f p t) end.
  { eexists None, _. split_and!; [done|done| |by left].
    intros p Hp. by rewrite lookup_insert_ne. }
  match goal with |- context [write_error sys ?f ?p ?t] =>
    destruct (write_error sys f p t) end.
  { eexists None, _. split_and!; [done|done| |by left].
    intros p Hp. by rewrite !lookup_insert_ne. }
  match goal with |- context [write_error sys ?f ?p ?t] =>
    destruct (write_error sys f p t) end.
  { eexists None, _. split_and!; [done|done| |by left].
    intros p Hp. by rewrite !lookup_insert_ne. }
  eexists (Some target), _. split_and!; [done|done| |right].
  - intros p Hp. by rewrite !lookup_insert_ne.
  - split; [done|]. rewrite !lookup_insert_eq. cbn [default].
    unfold txt_file, EMPTY. rewrite app_nil_l. by f_equal.
Qed.

End ExporterFacts.

(** ** The search page *)

Section AppFacts.

Import PyFormat Database DatabaseSpec AiProcessor App AppExamples
  ExtractorExamples DatabaseExamples.

(** [save_report] returns, and either appends the report or leaves the
    table as it was. *)
Lemma save_report_outcome e query content sources s :
  ∃ b s',
    save_report e query content sources s = (Return b, s')
    ∧ pending s' = []
    ∧ (b = true →
       ∃ earlier new_id now,
         table s' = table s ++ earlier
                    ++ [stamp new_id now (new_report query content sources)])
    ∧ (b = false → table s' = table s).
Proof.
  unfold save_report, try_except, bind, add, commit, rollback, modify, ret.
  fold (new_report query content sources).
  destruct (add_error e s _) as [x|].
  { eexists false, _. split_and!; [done|done|done|done]. }
  destruct (commit_error e _) as [x|].
  { eexists false, _. split_and!; [done|done|done|done]. }
  eexists true, _. split_and!; [done|done| |done].
  intros _. cbn [table pending]. rewrite flush_snoc.
  destruct (flush_extends (utcnow e {| table := table s;
      pending := pending s ++ [new_report query content sources] |})
    (pending s) (table s)) as [earlier Hw].
  exists earlier. eexists _, _. rewrite Hw at 1. by rewrite <- app_assoc.
Qed.

(** [generate_report] returns a non-empty string after one call of the
    model. *)
Lemma generate_report_returns self query contents template sent :
  ∃ report,
    generate_report self query contents template sent
    = (Return report, sent ++ [_prepare_prompt query contents template])
    ∧ report ≠ EMPTY.
Proof.
  unfold generate_report, try_except, bind, send, lift, ret.
  assert (Hu : UNEXPECTED ≠ EMPTY) by (vm_compute; discriminate).
  assert (Hn : NO_REPORT ≠ EMPTY) by (vm_compute; discriminate).
  destruct (generate_content self sent _) as [r|x]; [|by exists UNEXPECTED].
  destruct (text r) as [[|c t]|x]; [by exists NO_REPORT| |by exists UNEXPECTED].
  by exists (c :: t).
Qed.



(** What a click on Generate does when something is selected. *)
Lemma generate_block_run c ui w :
  let urls := selected_urls (state w) in
  generate_clicked ui = true → urls ≠ [] →
  ∃ contents calls' report session',
    Pipeline.build_contents (extractor c) urls (calls w)
    = (Return contents, calls')
    ∧ length contents = length urls
    ∧ report ≠ EMPTY
    ∧ generate_block c ui w
      = (Return tt,
         {| requests := requests w; calls := calls';
            prompts := prompts w
              ++ [_prepare_prompt (query ui) contents (prompt_template ui)];
            session := session';
            state :=
              {| search_results := search_results (state w);
                 selected_urls := urls;
                 generated_report := report;
                 current_query := current_query (state w) |} |})
    ∧ pending session' = []
    ∧ (table session' = table (session w)
       ∨ ∃ earlier new_id now,
           table session'
           = table (session w) ++ earlier
             ++ [stamp new_id now (new_report (query ui) report urls)]).
Proof.
  cbn zeta. unfold generate_block, bind, get. cbn beta iota.
  intros -> Hsel.
  destruct (selected_urls (state w)) as [|u urls] eqn:Hurls; [done|].
  destruct (collect_spec (extractor c) (u :: urls) [] (calls w))
    as (contents & calls' & Hrun & Hlen & _).
  fold (Pipeline.build_contents (extractor c) (u :: urls) (calls w)) in Hrun.
  cbn [app] in Hrun.
  destruct (generate_report_returns (ai_processor c) (query ui) contents
              (prompt_template ui) (prompts w)) as (report & Hgen & Hne).
  destruct (save_report_outcome (db c) (query ui) report (u :: urls)
              (session w)) as (b & session' & Hsave & Hpend & Hyes & Hno).
  exists contents, calls', report, session'.
  split_and!; [done|done|done| |done|].
  - unfold on_calls, on_prompts, on_session, modify, set_state, ret.
    cbn [calls prompts session state requests]. rewrite Hrun.
    cbn [calls prompts session state requests]. rewrite Hgen.
    cbn [calls prompts session state requests]. rewrite Hsave.
    by rewrite Hurls.
  - destruct b; [right; by apply Hyes|left; by apply Hno].
Qed.

Lemma generate_block_idle c ui w :
  generate_clicked ui = false ∨ selected_urls (state w) = [] →
  generate_block c ui w = (Return tt, w).
Proof.
  unfold generate_block, bind, get. cbn beta iota.
  intros [->| ->]; [done|]. by destruct (generate_clicked ui).
Qed.

(** Without a click on Generate, or with nothing selected, the generate
    block changes nothing.  Otherwise it never raises: it extracts one
    content per selected URL, sends the model one prompt made of them,
    keeps the report, which is never empty, in the session state, and
    saves it with the query and the selection; when the save fails the
    table is as it was and the report is kept all the same. *)
Theorem generate_block_spec c ui w :
  let urls := selected_urls (state w) in
  (generate_clicked ui = false ∨ urls = [] →
   generate_block c ui w = (Return tt, w))
  ∧ (generate_clicked ui = true → urls ≠ [] →
     ∃ contents calls' report session',
       Pipeline.build_contents (extractor c) urls (calls w)
       = (Return contents, calls')
       ∧ length contents = length urls
       ∧ report ≠ EMPTY
       ∧ generate_block c ui w
         = (Return tt,
            {| requests := requests w; calls := calls';
               prompts := prompts w
                 ++ [_prepare_prompt (query ui) contents (prompt_template ui)];
               session := session';
               state :=
                 {| search_results := search_results (state w);
                    selected_urls := urls;
                    generated_report := report;
                    current_query := current_query (state w) |} |})
       ∧ pending session' = []
       ∧ (table session' = table (session w)
          ∨ ∃ earlier new_id now,
              table session'
              = table (session w) ++ earlier
                ++ [stamp new_id now (new_report (query ui) report urls)])).
Proof.
  split; [apply generate_block_idle|apply generate_block_run].
Qed.

Lemma generate_block_spec_witness :
  ∃ contents calls' report session',
    Pipeline.build_contents hello_web [OK_URL] []
    = (Return contents, calls')
    ∧ length contents = 1%nat
    ∧ report ≠ EMPTY
    ∧ generate_block fruitless_site generate_all earlier_run
      = (Return tt,
         {| requests := []; calls := calls';
            prompts := [_prepare_prompt (ustr "topic") contents
                          (ustr "Summarise.")];
            session := session';
            state :=
              {| search_results := search_results (state earlier_run);
                 selected_urls := [OK_URL];
                 generated_report := report;
                 current_query := ustr "old topic" |} |})
    ∧ pending session' = []
    ∧ (table session' = []
       ∨ ∃ earlier new_id now,
           table session'
           = [] ++ earlier
             ++ [stamp new_id now
                   (new_report (ustr "topic") report [OK_URL])]).
Proof.
  apply (proj2 (generate_block_spec fruitless_site generate_all earlier_run));
    [reflexivity|discriminate].
Defined.

(** The first two blocks of the page return. *)
Lemma search_block_returns c ui w :
  ∃ w',
    search_block c ui w = (Return tt, w')
    ∧ calls w' = calls w ∧ prompts w' = prompts w ∧ session w' = session w
    ∧ selected_urls (state w') = selected_urls (state w)
    ∧ generated_report (state w') = generated_report (state w)
    ∧ current_query (state w') = query ui
    ∧ (search_clicked ui = false →
       requests w' = requests w
       ∧ search_results (state w') = search_results (state w))
    ∧ (search_clicked ui = true →
       ∃ st,
         Search.search (search_engine c) (query ui) (max_results ui)
           (time_filter ui) = (Return (Search.results st), st)
         ∧ requests w' = requests w ++ Search.sent st
         ∧ search_results (state w') = Search.results st).
Proof.
  unfold search_block, bind, modify, set_state, ret, run_search.
  cbn [requests calls prompts session state].
  destruct (search_clicked ui).
  - destruct (search_spec (search_engine c) (query ui) (max_results ui)
                (time_filter ui)) as (st & Hrun & _).
    rewrite Hrun. eexists. split; [done|].
    cbn. split_and!; [done..|]. intros _. by exists st.
  - eexists. split; [done|]. cbn. split_and!; done.
Qed.

Lemma select_block_run ui w :
  select_block ui w
  = (Return tt,
     {| requests := requests w; calls := calls w; prompts := prompts w;
        session := session w;
        state :=
          match search_results (state w) with
          | [] => state w
          | _ =>
              {| search_results := search_results (state w);
                 selected_urls :=
                   select_loop ui 0 (search_results (state w)) [];
                 generated_report := generated_report (state w);
                 current_query := current_query (state w) |}
          end |}).
Proof. reflexivity. Qed.

(** When a search finds nothing, the results are emptied but the
    selection of the earlier search is kept; a click on Generate in the
    next run then reports on that earlier selection, under the new
    query. *)
Theorem stale_selection_is_reported c ui1 ui2 w :
  search_clicked ui1 = true → generate_clicked ui1 = false →
  (Search.search (search_engine c) (query ui1) (max_results ui1)
     (time_filter ui1)).1 = Return [] →
  search_clicked ui2 = false → generate_clicked ui2 = true →
  selected_urls (state w) ≠ [] →
  ∃ w1 w2 contents,
    search_page c ui1 w = (Return tt, w1)
    ∧ search_results (state w1) = []
    ∧ selected_urls (state w1) = selected_urls (state w)
    ∧ search_page c ui2 w1 = (Return tt, w2)
    ∧ Pipeline.build_contents (extractor c) (selected_urls (state w))
        (calls w) = (Return contents, calls w2)
    ∧ prompts w2
      = prompts w
        ++ [_prepare_prompt (query ui2) contents (prompt_template ui2)].
Proof.
  intros Hs1 Hg1 Hnone Hs2 Hg2 Hsel.
  (* first run *)
  destruct (search_block_returns c ui1 w)
    as (wa & Hrun1 & Hca & Hpa & Hsa & Hsela & _ & _ & _ & Hfound).
  destruct (Hfound Hs1) as (st & Hsearch & _ & Hres).
  rewrite Hsearch in Hnone. cbn in Hnone. injection Hnone as Hnone.
  rewrite Hnone in Hres.
  assert (Hpage1 : search_page c ui1 w = (Return tt, wa)).
  { unfold search_page. unfold bind at 1. rewrite Hrun1.
    unfold bind at 1. rewrite select_block_run, Hres.
    rewrite generate_block_idle by auto. by destruct wa. }
  (* second run *)
  destruct (search_block_returns c ui2 wa)
    as (wb & Hrun2 & Hcb & Hpb & Hsb & Hselb & _ & _ & Hidle & _).
  destruct (Hidle Hs2) as [_ Hresb].
  set (wc := {| requests := requests wb; calls := calls wb;
                prompts := prompts wb; session := session wb;
                state := state wb |}).
  assert (Hwc : wc = wb) by (by destruct wb).
  destruct (generate_block_run c ui2 wb Hg2)
    as (contents & calls' & report & session' & Hbuild & _ & _ & Hgen & _).
  { by rewrite Hselb, Hsela. }
  eexists wa, _, contents. split_and!; [done|done|done| | |].
  - unfold search_page. unfold bind at 1. rewrite Hrun2.
    unfold bind at 1. rewrite select_block_run, Hresb, Hres.
    fold wc. rewrite Hwc. exact Hgen.
  - rewrite Hselb, Hsela, Hcb, Hca in Hbuild. exact Hbuild.
  - cbn [prompts]. by rewrite ?Hwc, Hpb, Hpa.
Qed.

Lemma stale_selection_is_reported_witness :
  ∃ w1 w2 contents,
    search_page fruitless_site new_topic earlier_run = (Return tt, w1)
    ∧ search_results (state w1) = []
    ∧ selected_urls (state w1) = [OK_URL]
    ∧ search_page fruitless_site generate_all w1 = (Return tt, w2)
    ∧ Pipeline.build_contents hello_web [OK_URL] []
      = (Return contents, calls w2)
    ∧ prompts w2
      = [] ++ [_prepare_prompt (ustr "topic") contents (ustr "Summarise.")].
Proof.
  apply (stale_selection_is_reported fruitless_site new_topic generate_all
           earlier_run); try reflexivity. discriminate.
Defined.

End AppFacts.
